(** * Framecast: a shallow embedding of [src/index.ts]

    The class [Framecast] is embedded as a record of its three private
    fields together with the part of the host environment its methods act
    on (promises, timers, the target window's inbox).  Methods are
    computations in a small state-and-exception monad, so that [throw],
    [try]/[catch] and a never-resuming [await] are written where the source
    has them.

    Conventions of the embedding:
    - JavaScript values are the inductive [value]; numbers are integers
      (timeouts and [Date.now()] stamps), so [NaN] is not represented.
    - A function object is a reference [fnref]; what a call of it does is
      given by [behaviour], a parameter of the development.  Listeners do
      not re-enter the endpoint they are registered on.
    - A [Set] is the list of its members in insertion order, without
      repetition.
    - [superjson] is an external dependency: it is the class [Codec], a
      parser and a printer with the round trip as its law.
    - [Date.now()] is an input of [call].
    - An [await] on a listener's promise is one step: the handler goes on
      with what the promise ends in, or never when it stays pending.
    - The host runs a timer's callback through [fireTimeout]; elapsed time
      itself is not represented. *)

From Stdlib Require Import ZArith String List DecimalString.
From stdpp Require Import gmap strings list fin_maps.

Set Warnings "-register-all".

(** ** JavaScript values *)

Inductive value : Type :=
| VUndefined
| VNull
| VBool (b : bool)
| VNum (n : Z)
| VStr (s : string)
| VError (message : string)
| VArray (items : list value)
| VObject (fields : list (string * value)).

(** [ToBoolean]. *)
Definition truthy (v : value) : bool :=
  match v with
  | VUndefined | VNull => false
  | VBool b => b
  | VNum n => negb (Z.eqb n 0)
  | VStr s => negb (String.eqb s "")
  | VError _ | VArray _ | VObject _ => true
  end.

(** [a === b] where [b] is a string literal. *)
Definition is_string (v : value) (lit : string) : bool :=
  match v with
  | VStr s => String.eqb s lit
  | _ => false
  end.

Fixpoint assoc (k : string) (fs : list (string * value)) : option value :=
  match fs with
  | [] => None
  | (k', v) :: fs' => if String.eqb k k' then Some v else assoc k fs'
  end.

(** [{ ...fs, k: v }]: an own property is overwritten, a new one is added. *)
Definition set_field (k : string) (v : value) (fs : list (string * value))
  : list (string * value) :=
  List.filter (fun p => negb (String.eqb k (fst p))) fs ++ [(k, v)].

(** [`${n}`] for an integer. *)
Definition show_Z (n : Z) : string := NilZero.string_of_int (Z.to_int n).

(** [`${x}`] for a [number | null]. *)
Definition show_number (x : option Z) : string :=
  match x with
  | Some n => show_Z n
  | None => "null"
  end.

(** [CreateListFromArrayLike], as [Function.prototype.apply] uses it on its
    second argument: [undefined] and [null] stand for no arguments, an array
    gives its items, an object is read through its [length] (absent or not a
    positive number: no arguments), a primitive is a [TypeError]. *)
Definition array_like (fs : list (string * value)) : list value :=
  match assoc "length" fs with
  | Some (VNum n) =>
      List.map (fun i => default VUndefined (assoc (show_Z (Z.of_nat i)) fs))
               (seq 0 (Z.to_nat n))
  | _ => []
  end.

Definition argument_list (args : value) : option (list value) :=
  match args with
  | VUndefined | VNull => Some []
  | VArray items => Some items
  | VObject fs => Some (array_like fs)
  | VError _ => Some []
  | VBool _ | VNum _ | VStr _ => None
  end.

Definition TypeError : value := VError "TypeError".

(** ** The codec ([superjson]) *)

Class Codec := {
  raw : Type;
  stringify : value -> raw;
  (** [None]: [superjson.parse] throws. *)
  parse : raw -> option value;
  parse_stringify : forall v, parse (stringify v) = Some v
}.

(** ** Function objects, promises, timers *)

Definition fnref := nat.

(** What evaluating [listener.apply(this, args)] gives: a value, a promise
    (in the state it ends in; [Pending] is a promise that never settles),
    or an exception. *)
Inductive settled : Type :=
| Pending
| Resolved (v : value)
| Rejected (e : value).

Inductive completion : Type :=
| Returns (v : value)
| ReturnsPromise (p : settled)
| Throws (e : value).

(** [Set.prototype.add], [Set.prototype.delete]. *)
Definition Set_has (x : fnref) (s : list fnref) : bool :=
  existsb (Nat.eqb x) s.

Definition Set_add (x : fnref) (s : list fnref) : list fnref :=
  if Set_has x s then s else s ++ [x].

Definition Set_delete (x : fnref) (s : list fnref) : list fnref :=
  List.filter (fun y => negb (Nat.eqb x y)) s.

(** ** Configuration *)

Module Config.
Record t := make {
  origin : option string;
  channel : option string;
  functionTimeoutMs : option Z;
  supportEvaluate : bool
}.
End Config.

Definition default_config : Config.t :=
  {| Config.origin := None;
     Config.channel := None;
     Config.functionTimeoutMs := Some 10000%Z;
     Config.supportEvaluate := false |}.

(** The entry of [pendingFunctionCalls]: the timer handle and the two
    settling functions of the promise [call] returned, each named by the
    promise it settles. *)
Record PendingCall := {
  timeout : nat;
  resolve : nat;
  reject : nat
}.

(** The closure given to [window.setTimeout] in [call]: it captures [id],
    [functionName] and [reject]. *)
Record TimeoutTask := {
  task_id : Z;
  task_functionName : string;
  task_reject : nat;
  task_delay : option Z
}.

Inductive timer : Type :=
| Armed (t : TimeoutTask)
| Spent.

Record MessageEvent `{Codec} := {
  data : raw;
  event_origin : string
}.

(** A method body run from a state ends in a value, in a thrown exception,
    or it is suspended at an [await] that never resumes. *)
Inductive outcome (A : Type) : Type :=
| Done (a : A)
| Thrown (e : value)
| Suspended.
Arguments Done {A} a.
Arguments Thrown {A} e.
Arguments Suspended {A}.

(** ** The endpoint and its host *)

Section Endpoint.

Context `{Codec}.

(** What calling a function object on an argument list does. *)
Variable behaviour : fnref -> list value -> completion.

(** The function the constructor registers under [function:evaluate]. *)
Variable evaluate_listener : fnref.

Record Framecast := {
  (** the private fields of the class *)
  config : Config.t;
  listeners : gmap string (list fnref);
  pendingFunctionCalls : gmap Z PendingCall;
  (** the host: promises created by [call], timers of [window], the
      messages posted to [target] with their target origin, the calls of
      listeners made so far, and the rejections nobody handles *)
  promises : list settled;
  timers : list timer;
  posted : list (raw * string);
  invoked : list (fnref * list value);
  unhandled : list value
}.

Definition with_listeners (f : gmap string (list fnref) -> gmap string (list fnref))
    (s : Framecast) : Framecast :=
  {| config := config s; listeners := f (listeners s);
     pendingFunctionCalls := pendingFunctionCalls s; promises := promises s;
     timers := timers s; posted := posted s; invoked := invoked s;
     unhandled := unhandled s |}.

Definition with_pending (f : gmap Z PendingCall -> gmap Z PendingCall)
    (s : Framecast) : Framecast :=
  {| config := config s; listeners := listeners s;
     pendingFunctionCalls := f (pendingFunctionCalls s); promises := promises s;
     timers := timers s; posted := posted s; invoked := invoked s;
     unhandled := unhandled s |}.

Definition with_promises (f : list settled -> list settled)
    (s : Framecast) : Framecast :=
  {| config := config s; listeners := listeners s;
     pendingFunctionCalls := pendingFunctionCalls s; promises := f (promises s);
     timers := timers s; posted := posted s; invoked := invoked s;
     unhandled := unhandled s |}.

Definition with_timers (f : list timer -> list timer)
    (s : Framecast) : Framecast :=
  {| config := config s; listeners := listeners s;
     pendingFunctionCalls := pendingFunctionCalls s; promises := promises s;
     timers := f (timers s); posted := posted s; invoked := invoked s;
     unhandled := unhandled s |}.

Definition with_posted (f : list (raw * string) -> list (raw * string))
    (s : Framecast) : Framecast :=
  {| config := config s; listeners := listeners s;
     pendingFunctionCalls := pendingFunctionCalls s; promises := promises s;
     timers := timers s; posted := f (posted s); invoked := invoked s;
     unhandled := unhandled s |}.

Definition with_invoked (f : list (fnref * list value) -> list (fnref * list value))
    (s : Framecast) : Framecast :=
  {| config := config s; listeners := listeners s;
     pendingFunctionCalls := pendingFunctionCalls s; promises := promises s;
     timers := timers s; posted := posted s; invoked := f (invoked s);
     unhandled := unhandled s |}.

Definition with_unhandled (f : list value -> list value)
    (s : Framecast) : Framecast :=
  {| config := config s; listeners := listeners s;
     pendingFunctionCalls := pendingFunctionCalls s; promises := promises s;
     timers := timers s; posted := posted s; invoked := invoked s;
     unhandled := f (unhandled s) |}.

(** *** The monad of methods *)


Definition M (A : Type) : Type := Framecast -> outcome A * Framecast.

Definition ret {A} (a : A) : M A := fun s => (Done a, s).

Definition bind {A B} (m : M A) (k : A -> M B) : M B :=
  fun s =>
    match m s with
    | (Done a, s') => k a s'
    | (Thrown e, s') => (Thrown e, s')
    | (Suspended, s') => (Suspended, s')
    end.

Definition throw {A} (e : value) : M A := fun s => (Thrown e, s).

(** [try { m } catch (error) { h error }] *)
Definition try_catch {A} (m : M A) (h : value -> M A) : M A :=
  fun s =>
    match m s with
    | (Thrown e, s') => h e s'
    | r => r
    end.

Definition gets {A} (f : Framecast -> A) : M A := fun s => (Done (f s), s).

Definition modify (f : Framecast -> Framecast) : M unit :=
  fun s => (Done tt, f s).

(** The state a computation leaves and what it ends in. *)
Definition exec {A} (m : M A) (s : Framecast) : Framecast := snd (m s).
Definition outcome_of {A} (m : M A) (s : Framecast) : outcome A := fst (m s).

#[local] Instance M_ret : MRet M := @ret.
#[local] Instance M_bind : MBind M := fun A B k m => bind m k.

(** Calling an [async] method without [await]: the caller goes on whatever
    the body ends in; an exception of the body is a rejection that nobody
    handles. *)
Definition spawn (m : M unit) : M unit :=
  fun s =>
    match m s with
    | (Thrown e, s') => (Done tt, with_unhandled (fun u => u ++ [e]) s')
    | (_, s') => (Done tt, s')
    end.

(** [for (const x of xs) acc = body(x, acc)] *)
Fixpoint for_of {A} (xs : list fnref) (body : fnref -> A -> M A) (acc : A) : M A :=
  match xs with
  | [] => mret acc
  | x :: xs' => acc' ← body x acc; for_of xs' body acc'
  end.

(** *** The host's primitives *)

(** [new Promise(...)], in a given state. *)
Definition new_Promise (st : settled) : M nat :=
  p ← gets (fun s => length (promises s));
  modify (with_promises (fun ps => ps ++ [st]));;
  mret p.

(** The [resolve] and [reject] functions of promise [p]: they settle it
    when it is pending and do nothing otherwise. *)
Definition settle_in (p : nat) (st : settled) (ps : list settled) : list settled :=
  match ps !! p with
  | Some Pending => <[p := st]> ps
  | _ => ps
  end.

Definition settle (p : nat) (st : settled) : M unit :=
  modify (with_promises (settle_in p st)).

Definition setTimeout (task : TimeoutTask) : M nat :=
  h ← gets (fun s => length (timers s));
  modify (with_timers (fun ts => ts ++ [Armed task]));;
  mret h.

Definition clearTimeout (h : nat) : M unit :=
  modify (with_timers (fun ts => <[h := Spent]> ts)).

(** [listener.apply(this, args)] *)
Definition apply (listener : fnref) (args : value) : M completion :=
  match argument_list args with
  | None => throw TypeError
  | Some l =>
      modify (with_invoked (fun i => i ++ [(listener, l)]));;
      match behaviour listener l with
      | Throws e => throw e
      | c => mret c
      end
  end.

(** [await c] *)
Definition await (c : completion) : M value :=
  match c with
  | Returns v | ReturnsPromise (Resolved v) => mret v
  | Throws e | ReturnsPromise (Rejected e) => throw e
  | ReturnsPromise Pending => fun s => (Suspended, s)
  end.

(** [data.k]: a [TypeError] on [undefined] and [null], [undefined] for a
    property that is not there. *)
Definition get (v : value) (k : string) : M value :=
  match v with
  | VUndefined | VNull => throw TypeError
  | VObject fs => mret (default VUndefined (assoc k fs))
  | _ => mret VUndefined
  end.

(** The string a value is, where it is known to be one. *)
Definition string_of (v : value) : string :=
  match v with
  | VStr s => s
  | _ => ""
  end.

(** [v.startsWith(prefix)]: a [TypeError] unless [v] is a string. *)
Definition startsWith (v : value) (prefix : string) : M bool :=
  match v with
  | VStr s => mret (String.prefix prefix s)
  | _ => throw TypeError
  end.

(** [Map.prototype.get] and [delete] of [pendingFunctionCalls], whose keys
    are numbers, at any value. *)
Definition Map_get (id : value) (m : gmap Z PendingCall) : option PendingCall :=
  match id with
  | VNum n => m !! n
  | _ => None
  end.

Definition Map_delete (id : value) (m : gmap Z PendingCall) : gmap Z PendingCall :=
  match id with
  | VNum n => delete n m
  | _ => m
  end.

(** *** The class *)

(** [get origin()] *)
Definition origin (s : Framecast) : string :=
  default "*" (Config.origin (config s)).

(** [get channel()] *)
Definition channel (s : Framecast) : string :=
  "__framecast" +:+
  match Config.channel (config s) with
  | Some c => if String.eqb c "" then "" else "_" +:+ c
  | None => ""
  end.

Definition postMessage (type : string) (message : list (string * value)) : M unit :=
  ch ← gets channel;
  o ← gets origin;
  modify (with_posted (fun q =>
    q ++ [(stringify (VObject (set_field "channel" (VStr ch)
                                (set_field "type" (VStr type) message))), o)])).

Definition on (eventType : string) (listener : fnref) : M unit :=
  present ← gets (fun s => listeners s !! eventType);
  (if present is None
   then modify (with_listeners (fun m => <[eventType := []]> m))
   else mret tt);;
  set ← gets (fun s => default [] (listeners s !! eventType));
  if String.prefix "function:" eventType && negb (Nat.eqb (length set) 0)
  then throw (VError ("Listener already exists for " +:+ eventType))
  else modify (with_listeners (fun m => <[eventType := Set_add listener set]> m)).

Definition off (eventType : string) (listener : fnref) : M unit :=
  present ← gets (fun s => listeners s !! eventType);
  match present with
  | Some set => modify (with_listeners (fun m => <[eventType := Set_delete listener set]> m))
  | None => mret tt
  end.

Definition broadcast (d : value) : M unit :=
  postMessage "broadcast" [("data", d)].

Definition clearPendingFunctionCall (id : value) : M unit :=
  pendingCall ← gets (fun s => Map_get id (pendingFunctionCalls s));
  match pendingCall with
  | Some pc =>
      modify (with_pending (Map_delete id));;
      clearTimeout (timeout pc)
  | None => mret tt
  end.

(** The body of the arrow function [call] hands to [window.setTimeout]. *)
Definition onTimeout (task : TimeoutTask) : M unit :=
  clearPendingFunctionCall (VNum (task_id task));;
  ms ← gets (fun s => Config.functionTimeoutMs (config s));
  settle (task_reject task)
    (Rejected (VError (task_functionName task +:+ " timed out after "
                         +:+ show_number ms +:+ "ms"))).

Definition falsy (ms : option Z) : bool :=
  match ms with
  | Some n => Z.eqb n 0
  | None => true
  end.

(** [call(functionName, ...args)], with [now] the value of [Date.now()].
    The method is [async]: its [throw] is the rejection of the promise it
    returns. *)
Definition call (functionName : string) (args : list value) (now : Z) : M nat :=
  let id := now in
  ms ← gets (fun s => Config.functionTimeoutMs (config s));
  if falsy ms
  then new_Promise (Rejected (VError
         "Framecast.call() requires a config.functionTimeoutMs to be set"))
  else
    p ← new_Promise Pending;
    h ← setTimeout {| task_id := id; task_functionName := functionName;
                      task_reject := p; task_delay := ms |};
    modify (with_pending (fun m => <[id := {| timeout := h; resolve := p; reject := p |}]> m));;
    postMessage ("function:" +:+ functionName) [("id", VNum id); ("args", VArray args)];;
    mret p.

(** [evaluate(fn, ...args)] calls [evaluate] with the text of the
    self-invoking expression, which [Function.prototype.toString] and
    [JSON.stringify] build; the text is the input here. *)
Definition evaluate (calledFnString : string) (now : Z) : M nat :=
  call "evaluate" [VStr calledFnString] now.

Definition handleBroadcast (d : value) : M unit :=
  set ← gets (fun s => default [] (listeners s !! "broadcast"));
  for_of set (fun listener _ => apply listener (VArray [d]);; mret tt) tt.

Definition handleFunctionCall (eventType : string) (id args : value) : M unit :=
  set ← gets (fun s => listeners s !! eventType);
  if (if set is Some l then Nat.eqb (length l) 0 else true)
  then postMessage "functionResult"
         [("id", id); ("error", VError ("No listeners for " +:+ eventType))]
  else
    try_catch
      (result ← for_of (default [] set)
                  (fun listener _ => c ← apply listener args; await c) VUndefined;
       postMessage "functionResult" [("id", id); ("result", result)])
      (fun error => postMessage "functionResult" [("id", id); ("error", error)]).

Definition handleFunctionResult (d : value) : M unit :=
  id ← get d "id";
  pendingCall ← gets (fun s => Map_get id (pendingFunctionCalls s));
  match pendingCall with
  | Some pc =>
      clearPendingFunctionCall id;;
      error ← get d "error";
      if truthy error
      then settle (reject pc) (Rejected error)
      else result ← get d "result"; settle (resolve pc) (Resolved result)
  | None => mret tt
  end.

Definition handlePostedMessage (event : MessageEvent) : M unit :=
  try_catch
    (d ← (fun s => match parse (data event) with
                   | Some v => (Done v, s)
                   | None => (Thrown TypeError, s)
                   end);
     o ← gets origin;
     if negb (String.eqb o "*") && negb (String.eqb (event_origin event) o)
     then mret tt
     else
       ch ← gets channel;
       c ← get d "channel";
       if negb (is_string c ch)
       then mret tt
       else
         type ← get d "type";
         if is_string type "broadcast"
         then payload ← get d "data"; spawn (handleBroadcast payload)
         else if is_string type "functionResult"
         then spawn (handleFunctionResult d)
         else
           isCall ← startsWith type "function:";
           if (isCall : bool)
           then
             id ← get d "id";
             args ← get d "args";
             spawn (handleFunctionCall (string_of type) id args)
           else mret tt)
    (fun _ => mret tt).

(** The host runs the callback of timer [h] if it is still armed; a timer
    runs at most once. *)
Definition fireTimeout (h : nat) : M unit :=
  slot ← gets (fun s => timers s !! h);
  match slot with
  | Some (Armed task) =>
      modify (with_timers (fun ts => <[h := Spent]> ts));;
      onTimeout task
  | _ => mret tt
  end.

(** [new Framecast(target, config)], [config] being the given options
    merged over the defaults. *)
Definition new_Framecast (cfg : Config.t) : Framecast :=
  exec (if Config.supportEvaluate cfg
        then on "function:evaluate" evaluate_listener
        else mret tt)
       {| config := cfg;
          listeners := {[ "broadcast" := [] ]};
          pendingFunctionCalls := ∅;
          promises := []; timers := []; posted := []; invoked := [];
          unhandled := [] |}.

(** *** The transport between two windows

    [window.postMessage(text, targetOrigin)] reaches the target window when
    [targetOrigin] is the wildcard or the target's own origin; the event it
    raises there carries the sender's origin. *)
Definition deliverable (targetOrigin receiver : string) : bool :=
  String.eqb targetOrigin "*" || String.eqb targetOrigin receiver.

Definition receive (sender receiver : string) (msgs : list (raw * string))
    (s : Framecast) : Framecast :=
  fold_left
    (fun s m =>
       if deliverable (snd m) receiver
       then exec (handlePostedMessage {| data := fst m; event_origin := sender |}) s
       else s)
    msgs s.

(** The messages an endpoint posted between two of its states. *)
Definition sent (s s' : Framecast) : list (raw * string) :=
  drop (length (posted s)) (posted s').

End Endpoint.

(** ** A concrete world

    An in-memory codec (a text is the value it encodes, or garbage), a
    handful of function objects, and two endpoints on the channel [c1]. *)

Definition memory_codec : Codec :=
  {| raw := option value;
     stringify := Some;
     parse := fun text => text;
     parse_stringify := fun _ => eq_refl |}.

(** Function 1 doubles its argument, 2 throws, 5 returns a promise that
    never settles, 6 and 7 return 1 and 2, any other returns [undefined]. *)
Definition example_behaviour (f : fnref) (args : list value) : completion :=
  match f, args with
  | 1, [VNum n] => ReturnsPromise (Resolved (VNum (2 * n)))
  | 2, _ => Throws (VError "boom")
  | 5, _ => ReturnsPromise Pending
  | 6, _ => Returns (VNum 1)
  | 7, _ => Returns (VNum 2)
  | _, _ => Returns VUndefined
  end.

Definition example_config : Config.t :=
  {| Config.origin := None;
     Config.channel := Some "c1";
     Config.functionTimeoutMs := Some 50%Z;
     Config.supportEvaluate := false |}.

Definition endpoint_A : @Framecast memory_codec :=
  @new_Framecast memory_codec 0 example_config.

(** [B] listens to [double] with function 1, to [f] and [g] with functions
    6 and 7, and to broadcasts with functions 3 and 4. *)
Definition endpoint_B : @Framecast memory_codec :=
  exec (on "broadcast" 4)
    (exec (on "broadcast" 3)
      (exec (on "function:g" 7)
        (exec (on "function:f" 6)
          (exec (on "function:double" 1)
            (@new_Framecast memory_codec 0 example_config))))).

Definition example_event (v : value) : @MessageEvent memory_codec :=
  @Build_MessageEvent memory_codec (Some v) "https://peer.example".

(** ** Properties *)

Section Properties.

Context `{Codec}.
Variable behaviour : fnref -> list value -> completion.

(** *** Vocabulary of the statements *)

(** The property [k] of an object literal. *)
Definition field (fs : list (string * value)) (k : string) : value :=
  default VUndefined (assoc k fs).

(** The [channel] property of a decoded message, when reading it does not
    throw. *)
Definition channel_field (d : value) : option value :=
  match d with
  | VUndefined | VNull => None
  | VObject fs => Some (field fs "channel")
  | _ => Some VUndefined
  end.

(** The origin check of [handlePostedMessage] lets the event through. *)
Definition origin_accepted (s : Framecast) (ev : MessageEvent) : bool :=
  String.eqb (origin s) "*" || String.eqb (event_origin ev) (origin s).

(** The event carries an object that passes the origin and the channel
    checks of [s]. *)
Definition accepted (s : Framecast) (ev : MessageEvent) (fs : list (string * value)) : Prop :=
  parse (data ev) = Some (VObject fs) /\
  origin_accepted s ev = true /\
  assoc "channel" fs = Some (VStr (channel s)).

(** The envelope [postMessage] builds from a message that has no [type]
    and no [channel] property of its own. *)
Definition envelope (s : Framecast) (type : string) (message : list (string * value))
  : raw * string :=
  (stringify (VObject (message ++ [("type", VStr type); ("channel", VStr (channel s))])),
   origin s).

(** What a pending promise awaited on [c] ends in. *)
Definition awaited (c : completion) : settled :=
  match c with
  | Returns v => Resolved v
  | ReturnsPromise p => p
  | Throws e => Rejected e
  end.

(** The listeners a broadcast of [d] calls, from a set in registration
    order: all of them up to and including the first that throws. *)
Fixpoint called (d : value) (set : list fnref) : list fnref :=
  match set with
  | [] => []
  | l :: set' =>
      match behaviour l [d] with
      | Throws _ => [l]
      | _ => l :: called d set'
      end
  end.

Fixpoint first_thrown (d : value) (set : list fnref) : option value :=
  match set with
  | [] => None
  | l :: set' =>
      match behaviour l [d] with
      | Throws e => Some e
      | _ => first_thrown d set'
      end
  end.

(** The call [id] of [name] is in flight: its entry is in the table, the
    timer armed for it has not run, the promise [p] it returned is
    pending. *)
Definition in_flight (s : Framecast) (id : Z) (name : string) (p h : nat) : Prop :=
  pendingFunctionCalls s !! id = Some {| timeout := h; resolve := p; reject := p |} /\
  timers s !! h = Some (Armed {| task_id := id; task_functionName := name;
                                 task_reject := p;
                                 task_delay := Config.functionTimeoutMs (config s) |}) /\
  promises s !! p = Some Pending.

(** The error of a call that timed out. *)
Definition timeout_error (s : Framecast) (name : string) : value :=
  VError (name +:+ " timed out after "
            +:+ show_number (Config.functionTimeoutMs (config s)) +:+ "ms").

(** What a [functionResult] message settles a call with. *)
Definition settlement (fs : list (string * value)) : settled :=
  if truthy (field fs "error")
  then Rejected (field fs "error")
  else Resolved (field fs "result").

(** A [functionResult] message for call [id] that [s] lets through. *)
Definition result_for (s : Framecast) (id : Z) (ev : MessageEvent)
    (fs : list (string * value)) : Prop :=
  accepted s ev fs /\
  assoc "type" fs = Some (VStr "functionResult") /\
  assoc "id" fs = Some (VNum id).

(** Two endpoints in windows of origins [oa] and [ob] are peers: they
    derive the same channel key, and the origin each is configured with
    lets messages through to and from the other. *)
Definition peers (a b : Framecast) (oa ob : string) : Prop :=
  channel a = channel b /\
  deliverable (origin a) ob = true /\
  deliverable (origin b) oa = true.

Definition throws (c : completion) : bool :=
  match c with
  | Throws _ => true
  | _ => false
  end.

(** How many calls of [cb] a log of calls holds, and how many times [cb]
    occurs in a set. *)
Definition times_called (cb : fnref) (log : list (fnref * list value)) : nat :=
  length (List.filter (fun i => Nat.eqb cb (fst i)) log).

Definition occurrences (cb : fnref) (set : list fnref) : nat :=
  length (List.filter (Nat.eqb cb) set).

Ltac run :=
  unfold exec, outcome_of, mbind, M_bind, bind, mret, M_ret, ret, gets, modify, throw,
    try_catch, spawn in *;
  cbn beta iota delta [fst snd] in *.

(** *** Sets of listeners *)

Lemma Set_has_add cb set : Set_has cb (Set_add cb set) = true.
Proof.
  unfold Set_add. destruct (Set_has cb set) eqn:E; [done|].
  unfold Set_has. rewrite existsb_app. cbn. rewrite Nat.eqb_refl.
  by rewrite orb_true_r.
Qed.

Lemma Set_add_idem cb set : Set_add cb (Set_add cb set) = Set_add cb set.
Proof. unfold Set_add at 1. by rewrite Set_has_add. Qed.

Lemma Set_has_elem_of cb set : Set_has cb set = true <-> cb ∈ set.
Proof.
  unfold Set_has. rewrite existsb_exists. split.
  - intros (y & Hy & E). apply Nat.eqb_eq in E. subst. by apply list_elem_of_In.
  - intros Hin. exists cb. split; [by apply list_elem_of_In | apply Nat.eqb_refl].
Qed.

Lemma Set_add_NoDup cb set : NoDup set -> NoDup (Set_add cb set).
Proof.
  intros Hnd. unfold Set_add. destruct (Set_has cb set) eqn:E; [done|].
  apply NoDup_app. repeat split; [done | | apply NoDup_singleton].
  intros x Hx Hx'. apply list_elem_of_singleton in Hx'. subst.
  apply Set_has_elem_of in Hx. congruence.
Qed.

Lemma Set_delete_not_elem cb set : cb ∉ Set_delete cb set.
Proof.
  unfold Set_delete. intros Hin. apply list_elem_of_In, filter_In in Hin.
  destruct Hin as [_ E]. by rewrite Nat.eqb_refl in E.
Qed.

Lemma Set_delete_singleton cb : Set_delete cb [cb] = [].
Proof. unfold Set_delete. cbn. by rewrite Nat.eqb_refl. Qed.

(** *** [on] and [off] *)

Lemma on_taken (s : Framecast) key cb set :
  String.prefix "function:" key = true ->
  listeners s !! key = Some set -> set <> [] ->
  on key cb s = (Thrown (VError ("Listener already exists for " +:+ key)), s).
Proof.
  intros Hk Hs Hne. unfold on. run. rewrite !Hs, Hk. cbn.
  destruct set; [done|]. reflexivity.
Qed.

Lemma on_free (s : Framecast) key cb :
  listeners s !! key = Some [] ->
  on key cb s = (Done tt, with_listeners (fun m => <[key := [cb]]> m) s).
Proof.
  intros Hs. unfold on. run. rewrite !Hs. cbn. by rewrite andb_false_r.
Qed.

Lemma on_broadcast (s : Framecast) cb :
  on "broadcast" cb s =
  (Done tt,
   with_listeners
     (fun m => <["broadcast" := Set_add cb (default [] (listeners s !! "broadcast"))]> m) s).
Proof.
  unfold on. run. destruct (listeners s !! "broadcast") eqn:E; cbn.
  - by rewrite E.
  - rewrite lookup_insert_eq. unfold with_listeners. cbn.
    by rewrite insert_insert_eq.
Qed.

Lemma off_present (s : Framecast) key cb set :
  listeners s !! key = Some set ->
  off key cb s = (Done tt, with_listeners (fun m => <[key := Set_delete cb set]> m) s).
Proof. intros Hs. unfold off. run. by rewrite Hs. Qed.

(** *** Dispatch of inbound messages *)

Lemma handleBroadcast_run (s : Framecast) d :
  handleBroadcast behaviour d s =
  (match first_thrown d (default [] (listeners s !! "broadcast")) with
   | Some e => Thrown e
   | None => Done tt
   end,
   with_invoked
     (fun i => i ++ map (fun l => (l, [d])) (called d (default [] (listeners s !! "broadcast"))))
     s).
Proof.
  unfold handleBroadcast. run.
  generalize (default [] (listeners s !! "broadcast")). intros set.
  revert s. induction set as [|l set IH]; intros s; cbn.
  - unfold with_invoked. rewrite app_nil_r. by destruct s.
  - unfold apply. run. cbn.
    destruct (behaviour l [d]) eqn:E; cbn; try reflexivity.
    all: rewrite IH; unfold with_invoked; cbn; by rewrite <- app_assoc.
Qed.

Lemma function_key name : String.prefix "function:" ("function:" +:+ name) = true.
Proof. by destruct name. Qed.

Lemma function_prefix_not_broadcast t :
  String.prefix "function:" t = true ->
  String.eqb t "broadcast" = false /\ String.eqb t "functionResult" = false.
Proof.
  intros Hp. split; apply String.eqb_neq; intros ->; cbn in Hp; discriminate.
Qed.

Lemma handlePostedMessage_accepted (s : Framecast) ev fs t :
  accepted s ev fs ->
  assoc "type" fs = Some (VStr t) ->
  handlePostedMessage behaviour ev s =
  if String.eqb t "broadcast"
  then spawn (handleBroadcast behaviour (field fs "data")) s
  else if String.eqb t "functionResult"
  then spawn (handleFunctionResult (VObject fs)) s
  else if String.prefix "function:" t
  then spawn (handleFunctionCall behaviour t (field fs "id") (field fs "args")) s
  else (Done tt, s).
Proof.
  intros (Hparse & Horigin & Hchannel) Htype.
  unfold origin_accepted in Horigin.
  assert (Hgate : negb (String.eqb (origin s) "*")
                  && negb (String.eqb (event_origin ev) (origin s)) = false).
  { rewrite <- negb_orb. by rewrite Horigin. }
  unfold handlePostedMessage, get, startsWith, field. run.
  rewrite Hparse, Hgate, Hchannel, Htype.
  cbn -[handleBroadcast handleFunctionResult handleFunctionCall String.prefix].
  rewrite String.eqb_refl.
  cbn -[handleBroadcast handleFunctionResult handleFunctionCall String.prefix].
  destruct (String.eqb t "broadcast");
    [ by destruct (handleBroadcast _ _ _) as [[] ?] |].
  destruct (String.eqb t "functionResult");
    [ by destruct (handleFunctionResult _ _) as [[] ?] |].
  destruct (String.prefix "function:" t); [| done].
  by destruct (handleFunctionCall _ _ _ _ _) as [[] ?].
Qed.

Lemma drop_undecodable (s : Framecast) ev :
  parse (data ev) = None -> handlePostedMessage behaviour ev s = (Done tt, s).
Proof. intros Hparse. unfold handlePostedMessage. run. by rewrite Hparse. Qed.

Lemma origin_gate (s : Framecast) ev :
  negb (String.eqb (origin s) "*") && negb (String.eqb (event_origin ev) (origin s))
  = negb (origin_accepted s ev).
Proof. unfold origin_accepted. by rewrite negb_orb. Qed.

Lemma drop_foreign_origin (s : Framecast) ev :
  origin_accepted s ev = false -> handlePostedMessage behaviour ev s = (Done tt, s).
Proof.
  intros Horigin. unfold handlePostedMessage. run.
  destruct (parse (data ev)); [| done]. cbn.
  by rewrite origin_gate, Horigin.
Qed.

Lemma drop_foreign_channel (s : Framecast) ev d :
  parse (data ev) = Some d ->
  channel_field d <> Some (VStr (channel s)) ->
  handlePostedMessage behaviour ev s = (Done tt, s).
Proof.
  intros Hparse Hch. unfold handlePostedMessage. run. rewrite Hparse. cbn.
  destruct (negb (String.eqb (origin s) "*") && _); cbn; [done|].
  assert (Hmis : forall c, channel_field d = Some c -> is_string c (channel s) = false).
  { intros c Hc. destruct c; try reflexivity. cbn.
    apply String.eqb_neq. intros ->. by apply Hch. }
  unfold get. destruct d; cbn in *; try done.
  all: by rewrite Hmis.
Qed.

Lemma origin_rejected (s : Framecast) ev :
  origin s <> "*" -> event_origin ev <> origin s -> origin_accepted s ev = false.
Proof.
  intros Hw Ho. unfold origin_accepted.
  apply String.eqb_neq in Hw, Ho. by rewrite Hw, Ho.
Qed.

(** *** Counting calls *)

Lemma occurrences_absent cb set : cb ∉ set -> occurrences cb set = 0%nat.
Proof.
  unfold occurrences. induction set as [|y set IH]; [done|].
  intros Hy. apply not_elem_of_cons in Hy as [Hne Hy]. cbn.
  destruct (Nat.eqb cb y) eqn:E; [apply Nat.eqb_eq in E; congruence|].
  by apply IH.
Qed.

Lemma occurrences_NoDup cb set : NoDup set -> cb ∈ set -> occurrences cb set = 1%nat.
Proof.
  induction 1 as [|x set Hx Hnd IH]; intros Hin; [by apply elem_of_nil in Hin|].
  unfold occurrences in *. cbn. destruct (Nat.eqb cb x) eqn:E.
  - apply Nat.eqb_eq in E. subst x. cbn. f_equal. by apply occurrences_absent.
  - apply Nat.eqb_neq in E. apply elem_of_cons in Hin as [? | Hin]; [congruence|].
    by apply IH.
Qed.

Lemma occurrences_app cb a b :
  occurrences cb (a ++ b) = (occurrences cb a + occurrences cb b)%nat.
Proof. unfold occurrences. by rewrite List.filter_app, length_app. Qed.

Lemma occurrences_head cb set : occurrences cb (cb :: set) = S (occurrences cb set).
Proof. unfold occurrences. cbn. by rewrite Nat.eqb_refl. Qed.

Lemma times_called_map cb d set :
  times_called cb (map (fun l => (l, [d])) set) = occurrences cb set.
Proof.
  unfold times_called, occurrences. induction set as [|y set IH]; [done|].
  cbn. destruct (Nat.eqb cb y); cbn; by rewrite IH.
Qed.

Lemma called_all d set :
  (forall l, l ∈ set -> throws (behaviour l [d]) = false) -> called d set = set.
Proof.
  induction set as [|x set IH]; [done|]. intros Hq. cbn.
  pose proof (Hq x ltac:(by left)) as Hx.
  destruct (behaviour x [d]); try discriminate.
  all: f_equal; apply IH; intros l Hl; apply Hq; by right.
Qed.

Lemma called_through d pre cb post :
  (forall l, l ∈ pre -> throws (behaviour l [d]) = false) ->
  exists rest, called d (pre ++ cb :: post) = pre ++ cb :: rest /\ rest ⊆ post.
Proof.
  induction pre as [|x pre IH]; intros Hq; cbn.
  - destruct (behaviour cb [d]).
    3: { exists []. split; [done|]. intros y Hy. by apply elem_of_nil in Hy. }
    all: exists (called d post); split; [done|].
    all: clear; induction post as [|y post IH]; [done|]; cbn.
    all: destruct (behaviour y [d]); intros z Hz.
    all: repeat (apply elem_of_cons in Hz as [-> | Hz]); try (by left);
      try (right; by apply IH); by apply elem_of_nil in Hz.
  - pose proof (Hq x ltac:(by left)) as Hx.
    destruct IH as (rest & E & Hsub); [intros l Hl; apply Hq; by right|].
    exists rest. destruct (behaviour x [d]); try discriminate.
    all: by rewrite E.
Qed.

Lemma called_once d set cb :
  NoDup set -> cb ∈ set ->
  (forall l, l ∈ set -> l <> cb -> throws (behaviour l [d]) = false) ->
  occurrences cb (called d set) = 1%nat.
Proof.
  intros Hnd Hin Hq.
  apply list_elem_of_split in Hin as (pre & post & ->).
  apply NoDup_app in Hnd as (Hpre & Hdisj & Hpost).
  apply NoDup_cons in Hpost as [Hcb Hpost].
  assert (Hcbpre : cb ∉ pre).
  { intros Hc. apply (Hdisj cb Hc). by left. }
  destruct (called_through d pre cb post) as (rest & E & Hsub).
  { intros l Hl. apply Hq; [apply elem_of_app; by left|]. intros ->. done. }
  rewrite E, occurrences_app, occurrences_head.
  rewrite (occurrences_absent cb pre Hcbpre).
  rewrite (occurrences_absent cb rest); [done|].
  intros Hc. apply Hcb. by apply Hsub.
Qed.

Lemma on_broadcast_twice (s : Framecast) cb :
  exec (on "broadcast" cb) (exec (on "broadcast" cb) s) = exec (on "broadcast" cb) s.
Proof.
  unfold exec. rewrite !on_broadcast. cbn. unfold with_listeners. cbn.
  rewrite lookup_insert_eq. cbn. by rewrite Set_add_idem, insert_insert_eq.
Qed.

Lemma on_broadcast_listeners (s : Framecast) cb set :
  listeners s !! "broadcast" = Some set ->
  listeners (exec (on "broadcast" cb) s) !! "broadcast" = Some (Set_add cb set).
Proof.
  intros Hb. unfold exec. rewrite on_broadcast. cbn. rewrite Hb. cbn.
  apply lookup_insert_eq.
Qed.

Lemma handleBroadcast_invoked (s : Framecast) d set :
  listeners s !! "broadcast" = Some set ->
  drop (length (invoked s)) (invoked (exec (handleBroadcast behaviour d) s))
  = map (fun l => (l, [d])) (called d set).
Proof.
  intros Hb. unfold exec. rewrite handleBroadcast_run. cbn. rewrite Hb. cbn.
  apply drop_app_length.
Qed.

(** *** The claims on the listener registry *)

(** C6.  For a key [function:<name>]: [on] throws "Listener already
    exists for <key>" when a handler is registered under the key, and the
    endpoint is as it was; once [off] has removed the handler, [on]
    registers a second one; under [broadcast], [on] never throws and adds
    the listener to those already there. *)
Theorem single_listener_per_function (s : Framecast) key cb1 cb2 :
  String.prefix "function:" key = true ->
  listeners s !! key = Some [cb1] ->
  let set := default [] (listeners s !! "broadcast") in
  on key cb2 s = (Thrown (VError ("Listener already exists for " +:+ key)), s)
  /\ (let s' := exec (off key cb1) s in
      outcome_of (on key cb2) s' = Done tt
      /\ listeners (exec (on key cb2) s') !! key = Some [cb2])
  /\ outcome_of (on "broadcast" cb2) s = Done tt
  /\ listeners (exec (on "broadcast" cb2) s) !! "broadcast" = Some (Set_add cb2 set)
  /\ (Set_has cb2 set = false -> Set_add cb2 set = set ++ [cb2]).
Proof.
  intros Hkey Hreg. cbn zeta. split; [| split; [| split; [| split]]].
  - by apply (on_taken s key cb2 [cb1]).
  - unfold exec, outcome_of. rewrite (off_present s key cb1 [cb1] Hreg).
    cbn [snd]. rewrite Set_delete_singleton.
    rewrite on_free; [| by apply lookup_insert_eq].
    cbn. split; [done|]. by rewrite lookup_insert_eq.
  - unfold outcome_of. by rewrite on_broadcast.
  - unfold exec. rewrite on_broadcast. cbn. by rewrite lookup_insert_eq.
  - intros Hfresh. unfold Set_add. by rewrite Hfresh.
Qed.

Lemma occurrences_called_le d set cb :
  (occurrences cb (called d set) <= occurrences cb set)%nat.
Proof.
  induction set as [|x set IH]; [done|]. cbn [called].
  assert (Hcons : forall r, occurrences cb (x :: r)
                            = ((if Nat.eqb cb x then 1 else 0) + occurrences cb r)%nat).
  { intros r. unfold occurrences. cbn. by destruct (Nat.eqb cb x). }
  destruct (behaviour x [d]); rewrite !Hcons; try lia.
  change (occurrences cb []) with 0%nat. lia.
Qed.

Lemma called_once_after_quiet d pre cb post :
  NoDup (pre ++ cb :: post) ->
  (forall l, l ∈ pre -> throws (behaviour l [d]) = false) ->
  occurrences cb (called d (pre ++ cb :: post)) = 1%nat.
Proof.
  intros Hnd Hq.
  apply NoDup_app in Hnd as (Hpre & Hdisj & Hpost).
  apply NoDup_cons in Hpost as [Hcb Hpost].
  assert (Hcbpre : cb ∉ pre).
  { intros Hc. apply (Hdisj cb Hc). by left. }
  destruct (called_through d pre cb post Hq) as (rest & E & Hsub).
  rewrite E, occurrences_app, occurrences_head.
  rewrite (occurrences_absent cb pre Hcbpre).
  rewrite (occurrences_absent cb rest); [done|].
  intros Hc. apply Hcb. by apply Hsub.
Qed.

(** C10, as the code has it.  Registering a callback twice under
    [broadcast] leaves the endpoint as registering it once does: the
    registry, a set without repetition, holds the callback once; a
    dispatch calls it at most once, and exactly once when no listener
    registered before it throws (one that throws ends the dispatch, see
    C4); and after one [off] it is not in the registry. *)
Theorem on_broadcast_idempotent (s : Framecast) cb set d :
  listeners s !! "broadcast" = Some set ->
  NoDup set ->
  let s1 := exec (on "broadcast" cb) s in
  let s2 := exec (on "broadcast" cb) s1 in
  let calls :=
    drop (length (invoked s2)) (invoked (exec (handleBroadcast behaviour d) s2)) in
  s2 = s1
  /\ (exists set2, listeners s2 !! "broadcast" = Some set2
       /\ occurrences cb set2 = 1%nat
       /\ (times_called cb calls <= 1)%nat
       /\ (forall pre post,
             set2 = pre ++ cb :: post ->
             (forall l, l ∈ pre -> throws (behaviour l [d]) = false) ->
             times_called cb calls = 1%nat))
  /\ (exists set3, listeners (exec (off "broadcast" cb) s2) !! "broadcast" = Some set3
       /\ cb ∉ set3).
Proof.
  intros Hb Hnd. cbn zeta. rewrite on_broadcast_twice.
  pose proof (on_broadcast_listeners s cb set Hb) as Hs1.
  set (s1 := exec (on "broadcast" cb) s) in *.
  pose proof (Set_add_NoDup cb set Hnd) as Hnd2.
  pose proof (proj1 (Set_has_elem_of cb (Set_add cb set)) (Set_has_add cb set)) as Hin.
  pose proof (occurrences_NoDup cb _ Hnd2 Hin) as Hone.
  split; [done | split].
  - exists (Set_add cb set).
    rewrite (handleBroadcast_invoked s1 d _ Hs1), times_called_map.
    split; [done | split; [done | split]].
    + rewrite <- Hone. apply occurrences_called_le.
    + intros pre post Hsplit Hquiet. rewrite Hsplit in *.
      by apply called_once_after_quiet.
  - unfold exec at 1. rewrite (off_present s1 "broadcast" cb _ Hs1). cbn [snd].
    exists (Set_delete cb (Set_add cb set)). split.
    + cbn. by rewrite lookup_insert_eq.
    + apply Set_delete_not_elem.
Qed.

(** *** The claims on inbound filtering *)

(** C8.  An inbound message that does not decode, or whose sender origin
    differs from the configured origin while that is not the wildcard, or
    whose [channel] is not the endpoint's channel key, is dropped:
    [handlePostedMessage] returns normally and the endpoint and its host
    are exactly as before (no listener called, nothing posted, registry
    and pending calls as they were). *)
Theorem foreign_message_dropped (s : Framecast) ev :
  parse (data ev) = None \/
  (origin s <> "*" /\ event_origin ev <> origin s) \/
  (exists d, parse (data ev) = Some d /\ channel_field d <> Some (VStr (channel s))) ->
  handlePostedMessage behaviour ev s = (Done tt, s).
Proof.
  intros [Hparse | [[Hw Ho] | (d & Hparse & Hch)]].
  - by apply drop_undecodable.
  - by apply drop_foreign_origin, origin_rejected.
  - by apply (drop_foreign_channel s ev d).
Qed.

(** C5, as the code has it.  The channel key is ["__framecast"] followed,
    when the configured channel id is a non-empty string, by ["_"] and the
    id; and a message on which [handlePostedMessage] acts in any way
    decodes to an object whose [channel] is that key. *)
Theorem channel_key_gates_dispatch (s : Framecast) :
  (Config.channel (config s) = None \/ Config.channel (config s) = Some "" ->
   channel s = "__framecast")
  /\ (forall c, Config.channel (config s) = Some c -> c <> "" ->
      channel s = "__framecast" +:+ "_" +:+ c)
  /\ (forall ev, handlePostedMessage behaviour ev s <> (Done tt, s) ->
      exists fs, parse (data ev) = Some (VObject fs)
                 /\ assoc "channel" fs = Some (VStr (channel s))).
Proof.
  split; [| split].
  - unfold channel. by intros [-> | ->].
  - intros c Hc Hne. unfold channel. rewrite Hc.
    apply String.eqb_neq in Hne. by rewrite Hne.
  - intros ev Hacts.
    destruct (parse (data ev)) as [d|] eqn:Hparse;
      [| by destruct Hacts; apply drop_undecodable].
    assert (Hdrop : channel_field d <> Some (VStr (channel s)) -> False).
    { intros Hch. by destruct Hacts; apply (drop_foreign_channel s ev d). }
    destruct d as [| | | | | | |fs]; try (by destruct Hdrop).
    exists fs. split; [done|].
    unfold channel_field, field in Hdrop.
    destruct (assoc "channel" fs) as [c|]; cbn in Hdrop; [| by destruct Hdrop].
    destruct c as [| | | |c| | |]; try (by destruct Hdrop).
    destruct (String.eqb_spec c (channel s)) as [-> | Hne]; [done|].
    destruct Hdrop. congruence.
Qed.

(** *** [call] *)

Lemma call_refused (s : Framecast) name args now :
  falsy (Config.functionTimeoutMs (config s)) = true ->
  call name args now s =
  (Done (length (promises s)),
   with_promises
     (fun ps => ps ++ [Rejected (VError
        "Framecast.call() requires a config.functionTimeoutMs to be set")]) s).
Proof. intros Hms. unfold call, new_Promise. run. by rewrite Hms. Qed.

Lemma call_issued (s : Framecast) name args now :
  falsy (Config.functionTimeoutMs (config s)) = false ->
  call name args now s =
  (Done (length (promises s)),
   with_posted
     (fun q => q ++ [envelope s ("function:" +:+ name)
                       [("id", VNum now); ("args", VArray args)]])
     (with_pending
        (fun m => <[now := {| timeout := length (timers s);
                              resolve := length (promises s);
                              reject := length (promises s) |}]> m)
        (with_timers
           (fun ts => ts ++ [Armed {| task_id := now; task_functionName := name;
                                      task_reject := length (promises s);
                                      task_delay := Config.functionTimeoutMs (config s) |}])
           (with_promises (fun ps => ps ++ [Pending]) s)))).
Proof.
  intros Hms. unfold call, new_Promise, setTimeout, postMessage. run.
  by rewrite Hms.
Qed.

Lemma falsy_spec ms : falsy ms = true <-> ms = None \/ ms = Some 0%Z.
Proof.
  destruct ms as [n|]; cbn; [| by split; [left|]].
  rewrite Z.eqb_eq. split; [intros ->; by right | intros [? | ?]; congruence].
Qed.

Lemma lookup_snoc {A} (l : list A) (x : A) : (l ++ [x]) !! length l = Some x.
Proof. by rewrite lookup_app_r, Nat.sub_diag. Qed.

(** *** The claims on [call] *)

(** C9.  [call] fails with the configuration error exactly when the
    configured [functionTimeoutMs] is [null] or zero, and then does nothing
    else; with any other value, negative ones included, it arms a timer
    with that delay, stores the pending entry under the id and posts the
    [function:<name>] envelope. *)
Theorem call_timeout_guard (s : Framecast) name args now :
  let ms := Config.functionTimeoutMs (config s) in
  let p := length (promises s) in
  let h := length (timers s) in
  let failure :=
    Rejected (VError "Framecast.call() requires a config.functionTimeoutMs to be set") in
  (promises (exec (call name args now) s) !! p = Some failure
   <-> ms = None \/ ms = Some 0%Z)
  /\ (ms = None \/ ms = Some 0%Z ->
      call name args now s = (Done p, with_promises (fun ps => ps ++ [failure]) s))
  /\ (forall n, ms = Some n -> n <> 0%Z ->
      call name args now s =
      (Done p,
       with_posted
         (fun q => q ++ [envelope s ("function:" +:+ name)
                           [("id", VNum now); ("args", VArray args)]])
         (with_pending
            (fun m => <[now := {| timeout := h; resolve := p; reject := p |}]> m)
            (with_timers
               (fun ts => ts ++ [Armed {| task_id := now; task_functionName := name;
                                          task_reject := p; task_delay := Some n |}])
               (with_promises (fun ps => ps ++ [Pending]) s))))).
Proof.
  cbn zeta. split; [| split].
  - rewrite <- falsy_spec. unfold exec.
    destruct (falsy (Config.functionTimeoutMs (config s))) eqn:Hms.
    + rewrite call_refused by done. cbn. by rewrite lookup_snoc.
    + rewrite call_issued by done. cbn. rewrite lookup_snoc. split; discriminate.
  - intros Hms. apply call_refused. by apply falsy_spec.
  - intros n Hms Hn. rewrite call_issued.
    + by rewrite Hms.
    + rewrite Hms. cbn. by apply Z.eqb_neq.
Qed.

(** *** The handlers *)

Lemma handleFunctionCall_unregistered (s : Framecast) key id args :
  listeners s !! key = None \/ listeners s !! key = Some [] ->
  handleFunctionCall behaviour key id args s =
  (Done tt,
   with_posted
     (fun q => q ++ [envelope s "functionResult"
                       [("id", id); ("error", VError ("No listeners for " +:+ key))]])
     s).
Proof.
  intros Hreg. unfold handleFunctionCall, postMessage. run.
  by destruct Hreg as [-> | ->].
Qed.

Lemma handleFunctionCall_registered (s : Framecast) key id l al :
  listeners s !! key = Some [l] ->
  handleFunctionCall behaviour key id (VArray al) s =
  let s' := with_invoked (fun i => i ++ [(l, al)]) s in
  match awaited (behaviour l al) with
  | Resolved v =>
      (Done tt,
       with_posted (fun q => q ++ [envelope s "functionResult" [("id", id); ("result", v)]]) s')
  | Rejected e =>
      (Done tt,
       with_posted (fun q => q ++ [envelope s "functionResult" [("id", id); ("error", e)]]) s')
  | Pending => (Suspended, s')
  end.
Proof.
  intros Hreg. unfold handleFunctionCall, postMessage, apply, await. run.
  rewrite Hreg. cbn.
  destruct (behaviour l al) as [v | [| v | e] | e]; run; cbn; reflexivity.
Qed.

Lemma handleFunctionResult_unknown (s : Framecast) fs :
  Map_get (field fs "id") (pendingFunctionCalls s) = None ->
  handleFunctionResult (VObject fs) s = (Done tt, s).
Proof.
  intros Hget. unfold handleFunctionResult, get. run. fold (field fs "id").
  by rewrite Hget.
Qed.

Lemma handleFunctionResult_pending (s : Framecast) fs id pc :
  assoc "id" fs = Some (VNum id) ->
  pendingFunctionCalls s !! id = Some pc ->
  handleFunctionResult (VObject fs) s =
  (Done tt,
   with_promises
     (settle_in (if truthy (field fs "error") then reject pc else resolve pc) (settlement fs))
     (with_timers (fun ts => <[timeout pc := Spent]> ts)
        (with_pending (fun m => delete id m) s))).
Proof.
  intros Hid Hpc.
  unfold handleFunctionResult, clearPendingFunctionCall, clearTimeout, settle, get,
    settlement, field.
  run. rewrite Hid. cbn. repeat (rewrite Hpc; cbn).
  by destruct (truthy (default VUndefined (assoc "error" fs))).
Qed.

Lemma fireTimeout_armed (s : Framecast) h task pc :
  timers s !! h = Some (Armed task) ->
  pendingFunctionCalls s !! task_id task = Some pc ->
  fireTimeout h s =
  (Done tt,
   with_promises
     (settle_in (task_reject task) (Rejected (timeout_error s (task_functionName task))))
     (with_timers (fun ts => <[timeout pc := Spent]> (<[h := Spent]> ts))
        (with_pending (fun m => delete (task_id task) m) s))).
Proof.
  intros Ht Hpc.
  unfold fireTimeout, onTimeout, clearPendingFunctionCall, clearTimeout, settle. run.
  rewrite Ht. cbn. by repeat (rewrite Hpc; cbn).
Qed.

Lemma fireTimeout_spent (s : Framecast) h :
  timers s !! h = Some Spent -> fireTimeout h s = (Done tt, s).
Proof. intros Ht. unfold fireTimeout. run. by rewrite Ht. Qed.

Lemma call_in_flight (s : Framecast) name args now :
  falsy (Config.functionTimeoutMs (config s)) = false ->
  in_flight (exec (call name args now) s) now name (length (promises s)) (length (timers s)).
Proof.
  intros Hms. unfold in_flight, exec, call, new_Promise, setTimeout, postMessage. run.
  rewrite Hms. cbn. repeat split.
  - apply lookup_insert_eq.
  - apply lookup_snoc.
  - apply lookup_snoc.
Qed.

Lemma spawn_done (m : M unit) (s s' : Framecast) :
  m s = (Done tt, s') -> spawn m s = (Done tt, s').
Proof. intros E. unfold spawn. by rewrite E. Qed.

Lemma first_thrown_quiet d set :
  (forall l, l ∈ set -> throws (behaviour l [d]) = false) -> first_thrown d set = None.
Proof.
  induction set as [|x set IH]; [done|]. intros Hq. cbn.
  pose proof (Hq x ltac:(by left)) as Hx.
  destruct (behaviour x [d]); try discriminate.
  all: apply IH; intros l Hl; apply Hq; by right.
Qed.

Lemma called_until_thrower d pre l post e :
  (forall x, x ∈ pre -> throws (behaviour x [d]) = false) ->
  behaviour l [d] = Throws e ->
  called d (pre ++ l :: post) = pre ++ [l]
  /\ first_thrown d (pre ++ l :: post) = Some e.
Proof.
  intros Hq Hl. induction pre as [|x pre IH]; cbn.
  - by rewrite Hl.
  - pose proof (Hq x ltac:(by left)) as Hx.
    destruct IH as [IH1 IH2]; [intros y Hy; apply Hq; by right|].
    destruct (behaviour x [d]); try discriminate.
    all: by rewrite IH1, IH2.
Qed.

(** *** The claims on dispatch *)

(** C4, as the code has it.  A dispatched broadcast calls the registered
    listeners with the same data, in registration order, up to and
    including the first one that throws: all of them when none throws,
    and none after a listener that throws, whose exception ends
    [handleBroadcast]. *)
Theorem broadcast_until_first_throw (s : Framecast) d set :
  listeners s !! "broadcast" = Some set ->
  let calls :=
    drop (length (invoked s)) (invoked (exec (handleBroadcast behaviour d) s)) in
  ((forall l, l ∈ set -> throws (behaviour l [d]) = false) ->
   outcome_of (handleBroadcast behaviour d) s = Done tt
   /\ calls = map (fun l => (l, [d])) set)
  /\ (forall pre l post e,
      set = pre ++ l :: post ->
      (forall x, x ∈ pre -> throws (behaviour x [d]) = false) ->
      behaviour l [d] = Throws e ->
      outcome_of (handleBroadcast behaviour d) s = Thrown e
      /\ calls = map (fun l => (l, [d])) (pre ++ [l])).
Proof.
  intros Hb. cbn zeta. rewrite (handleBroadcast_invoked s d set Hb).
  unfold outcome_of. rewrite handleBroadcast_run, Hb. cbn [fst default from_option id]. split.
  - intros Hq. by rewrite first_thrown_quiet, called_all.
  - intros pre l post e -> Hq Hl.
    destruct (called_until_thrower d pre l post e Hq Hl) as [-> ->]. done.
Qed.

(** C7.  An inbound [function:<name>] message that passes the origin and
    channel checks: when no listener is registered under that key, the
    endpoint posts a [functionResult] with the call's id and the error
    "No listeners for <key>"; when listener [l] is registered, it is
    called with the argument list, and the endpoint posts the id with the
    result the listener gives, or with the error it raises.  In all three
    cases [handlePostedMessage] returns normally and no rejection is left
    unhandled. *)
Theorem inbound_function_call (s : Framecast) ev fs name :
  accepted s ev fs ->
  assoc "type" fs = Some (VStr ("function:" +:+ name)) ->
  let key := "function:" +:+ name in
  let reply payload :=
    envelope s "functionResult" [("id", field fs "id"); payload] in
  (listeners s !! key = None \/ listeners s !! key = Some [] ->
   handlePostedMessage behaviour ev s =
   (Done tt,
    with_posted
      (fun q => q ++ [reply ("error", VError ("No listeners for " +:+ key))]) s))
  /\ (forall l al,
      listeners s !! key = Some [l] ->
      field fs "args" = VArray al ->
      let s' := with_invoked (fun i => i ++ [(l, al)]) s in
      (forall v, awaited (behaviour l al) = Resolved v ->
       handlePostedMessage behaviour ev s =
       (Done tt, with_posted (fun q => q ++ [reply ("result", v)]) s'))
      /\ (forall e, awaited (behaviour l al) = Rejected e ->
          handlePostedMessage behaviour ev s =
          (Done tt, with_posted (fun q => q ++ [reply ("error", e)]) s'))).
Proof.
  intros Hacc Htype. cbn zeta.
  rewrite (handlePostedMessage_accepted s ev fs _ Hacc Htype).
  pose proof (function_key name) as Hkey.
  destruct (function_prefix_not_broadcast _ Hkey) as [-> ->]. rewrite Hkey. split.
  - intros Hreg. apply spawn_done. by apply handleFunctionCall_unregistered.
  - intros l al Hreg ->. split.
    + intros v Hv. apply spawn_done.
      rewrite (handleFunctionCall_registered s _ _ l al Hreg). cbn zeta. by rewrite Hv.
    + intros e He. apply spawn_done.
      rewrite (handleFunctionCall_registered s _ _ l al Hreg). cbn zeta. by rewrite He.
Qed.

(** *** The life of a call *)

Lemma settle_in_pending p st ps :
  ps !! p = Some Pending -> settle_in p st ps !! p = Some st.
Proof.
  intros Hp. unfold settle_in. rewrite Hp.
  apply list_lookup_insert_eq. by apply lookup_lt_Some in Hp.
Qed.

Lemma result_dropped (s : Framecast) id ev fs :
  result_for s id ev fs ->
  pendingFunctionCalls s !! id = None ->
  handlePostedMessage behaviour ev s = (Done tt, s).
Proof.
  intros (Hacc & Htype & Hid) Hnone.
  rewrite (handlePostedMessage_accepted s ev fs _ Hacc Htype). cbn.
  apply spawn_done, handleFunctionResult_unknown.
  unfold field. by rewrite Hid.
Qed.

Lemma result_settles (s : Framecast) id ev fs pc :
  result_for s id ev fs ->
  pendingFunctionCalls s !! id = Some pc ->
  handlePostedMessage behaviour ev s =
  (Done tt,
   with_promises
     (settle_in (if truthy (field fs "error") then reject pc else resolve pc) (settlement fs))
     (with_timers (fun ts => <[timeout pc := Spent]> ts)
        (with_pending (fun m => delete id m) s))).
Proof.
  intros (Hacc & Htype & Hid) Hpc.
  rewrite (handlePostedMessage_accepted s ev fs _ Hacc Htype). cbn.
  apply spawn_done. by apply handleFunctionResult_pending.
Qed.

(** X20.  For a call in flight (its own entry in the table, its timer
    armed, its promise pending).  When its timer runs, the call is
    rejected with the error "<name> timed out after <functionTimeoutMs>ms",
    its entry is removed and its timer is spent; a [functionResult] for
    its id that arrives afterwards leaves the endpoint and its host
    exactly as they are, and the timer does not run again.  When a
    [functionResult] for its id arrives first, the call is settled by it,
    its entry is removed and its timer is cancelled: the timer then does
    nothing, and neither does a second result. *)
Theorem timeout_or_result_settles_once (s : Framecast) id name p h :
  in_flight s id name p h ->
  (let s1 := exec (fireTimeout h) s in
   promises s1 !! p = Some (Rejected (timeout_error s name))
   /\ pendingFunctionCalls s1 !! id = None
   /\ timers s1 !! h = Some Spent
   /\ (forall ev fs, result_for s1 id ev fs ->
       handlePostedMessage behaviour ev s1 = (Done tt, s1))
   /\ fireTimeout h s1 = (Done tt, s1))
  /\ (forall ev fs, result_for s id ev fs ->
      let s2 := exec (handlePostedMessage behaviour ev) s in
      promises s2 !! p = Some (settlement fs)
      /\ pendingFunctionCalls s2 !! id = None
      /\ timers s2 !! h = Some Spent
      /\ fireTimeout h s2 = (Done tt, s2)
      /\ (forall ev' fs', result_for s2 id ev' fs' ->
          handlePostedMessage behaviour ev' s2 = (Done tt, s2))).
Proof.
  intros (Hentry & Htimer & Hpromise).
  pose proof (lookup_lt_Some _ _ _ Htimer) as Hh.
  split.
  - cbn zeta. unfold exec.
    rewrite (fireTimeout_armed s h _ _ Htimer Hentry). cbn [snd].
    set (s1 := with_promises _ _).
    assert (Hgone : pendingFunctionCalls s1 !! id = None) by apply lookup_delete_eq.
    assert (Hspent : timers s1 !! h = Some Spent).
    { cbn. apply list_lookup_insert_eq. by rewrite length_insert. }
    repeat split; try done.
    + cbn. by apply settle_in_pending.
    + intros ev fs Hres. by apply (result_dropped s1 id ev fs).
    + by apply fireTimeout_spent.
  - intros ev fs Hres. cbn zeta. unfold exec.
    rewrite (result_settles s id ev fs _ Hres Hentry). cbn [snd timeout resolve reject].
    replace (if truthy (field fs "error") then p else p) with p
      by (by destruct (truthy _)).
    set (s2 := with_promises _ _).
    assert (Hgone : pendingFunctionCalls s2 !! id = None) by apply lookup_delete_eq.
    assert (Hspent : timers s2 !! h = Some Spent).
    { cbn. by apply list_lookup_insert_eq. }
    repeat split; try done.
    + cbn. by apply settle_in_pending.
    + by apply fireTimeout_spent.
    + intros ev' fs' Hres'. by apply (result_dropped s2 id ev' fs').
Qed.

Lemma receive_one sender receiver (m : raw * string) (s : Framecast) :
  deliverable (snd m) receiver = true ->
  receive behaviour sender receiver [m] s =
  exec (handlePostedMessage behaviour {| data := fst m; event_origin := sender |}) s.
Proof. intros Hd. unfold receive. cbn. by rewrite Hd. Qed.

Lemma deliverable_accepted (s : Framecast) sender text :
  deliverable (origin s) sender = true ->
  origin_accepted s {| data := text; event_origin := sender |} = true.
Proof.
  unfold deliverable, origin_accepted. cbn.
  by rewrite (String.eqb_sym sender (origin s)).
Qed.

(** The exchange with no other traffic.  Endpoint [a] calls [name] with
    [args] on its peer [b], where listener [l] is registered under
    [function:<name>] and gives the value [v] on [args]; [b] handles the
    message and [a] handles the answer next: the promise is resolved with
    [v] and the entry under the id is gone. *)
Theorem remote_call_round_trip (a b : Framecast) oa ob name args now l v :
  peers a b oa ob ->
  falsy (Config.functionTimeoutMs (config a)) = false ->
  listeners b !! ("function:" +:+ name) = Some [l] ->
  awaited (behaviour l args) = Resolved v ->
  let p := length (promises a) in
  let a1 := exec (call name args now) a in
  let b1 := receive behaviour oa ob (sent a a1) b in
  let a2 := receive behaviour ob oa (sent b b1) a1 in
  outcome_of (call name args now) a = Done p
  /\ promises a1 !! p = Some Pending
  /\ pendingFunctionCalls a1 !! now
     = Some {| timeout := length (timers a); resolve := p; reject := p |}
  /\ invoked b1 = invoked b ++ [(l, args)]
  /\ promises a2 !! p = Some (Resolved v)
  /\ pendingFunctionCalls a2 !! now = None.
Proof.
  intros (Hchannel & Hab & Hba) Hms Hreg Hv. cbn zeta.
  unfold exec, outcome_of. rewrite (call_issued a name args now Hms). cbn [fst snd].
  set (a1 := with_posted _ _).
  assert (Hsent : sent a a1 = [envelope a ("function:" +:+ name)
                                 [("id", VNum now); ("args", VArray args)]]).
  { unfold sent. cbn. apply drop_app_length. }
  rewrite Hsent. rewrite receive_one by done.
  set (call_event := {| data := _; event_origin := oa |}).
  assert (Hcall : accepted b call_event
            ([("id", VNum now); ("args", VArray args)]
               ++ [("type", VStr ("function:" +:+ name)); ("channel", VStr (channel a))])).
  { repeat split.
    - apply parse_stringify.
    - by apply deliverable_accepted.
    - cbn. by rewrite Hchannel. }
  pose proof (function_key name) as Hkey.
  destruct (function_prefix_not_broadcast _ Hkey) as [Hnb Hnr].
  unfold exec.
  rewrite (handlePostedMessage_accepted b call_event _ _ Hcall eq_refl).
  rewrite Hnb, Hnr, Hkey.
  replace (field _ "id") with (VNum now) by reflexivity.
  replace (field _ "args") with (VArray args) by reflexivity.
  pose proof (handleFunctionCall_registered b _ (VNum now) l args Hreg) as Hrun.
  cbn zeta in Hrun. rewrite Hv in Hrun.
  rewrite (spawn_done _ b _ Hrun). clear Hrun. cbn [snd].
  set (b1 := with_posted _ _).
  assert (Hback : sent b b1 = [envelope b "functionResult"
                                 [("id", VNum now); ("result", v)]]).
  { unfold sent. cbn. apply drop_app_length. }
  rewrite Hback. rewrite receive_one by done.
  set (result_event := {| data := _; event_origin := ob |}).
  assert (Hentry : pendingFunctionCalls a1 !! now
            = Some {| timeout := length (timers a); resolve := length (promises a);
                      reject := length (promises a) |}) by apply lookup_insert_eq.
  assert (Hresult : result_for a1 now result_event
            ([("id", VNum now); ("result", v)]
               ++ [("type", VStr "functionResult"); ("channel", VStr (channel b))])).
  { repeat split.
    - apply parse_stringify.
    - by apply (deliverable_accepted a1).
    - cbn. by rewrite <- Hchannel. }
  unfold exec.
  rewrite (result_settles a1 now result_event _ _ Hresult Hentry). cbn [snd].
  repeat split.
  - cbn. apply lookup_snoc.
  - done.
  - cbn. apply settle_in_pending, lookup_snoc.
  - cbn. apply lookup_delete_eq.
Qed.

End Properties.

(** ** The claims in the concrete world *)

Definition origin_A : string := "https://a.example".
Definition origin_B : string := "https://b.example".
Definition tick : Z := 1700000000000%Z.

(** [A] calls [double] with 5 on [B], whose listener doubles: the call
    settles with 10 and the entry is gone. *)
Lemma remote_call_round_trip_witness :
  let a1 := exec (call "double" [VNum 5] tick) endpoint_A in
  let b1 := receive example_behaviour origin_A origin_B (sent endpoint_A a1) endpoint_B in
  let a2 := receive example_behaviour origin_B origin_A (sent endpoint_B b1) a1 in
  promises a2 !! 0%nat = Some (Resolved (VNum 10))
  /\ pendingFunctionCalls a2 !! tick = None.
Proof.
  pose proof (@remote_call_round_trip memory_codec example_behaviour
                endpoint_A endpoint_B origin_A origin_B "double" [VNum 5] tick 1 (VNum 10)
                (conj eq_refl (conj eq_refl eq_refl)) eq_refl eq_refl eq_refl)
    as (_ & _ & _ & _ & Hsettled & Hgone).
  exact (conj Hsettled Hgone).
Defined.

(** [A] calls [slow]; nothing comes back and the timer runs: the call is
    rejected with the timeout error, the entry is gone, the timer is
    spent. *)
Lemma timeout_or_result_settles_once_witness :
  let s := exec (call "slow" [] tick) endpoint_A in
  let s1 := exec (fireTimeout 0) s in
  in_flight s tick "slow" 0 0
  /\ promises s1 !! 0%nat = Some (Rejected (VError "slow timed out after 50ms"))
  /\ pendingFunctionCalls s1 !! tick = None
  /\ timers s1 !! 0%nat = Some Spent.
Proof.
  pose proof (@call_in_flight memory_codec endpoint_A "slow" [] tick eq_refl) as Hfly.
  pose proof (@timeout_or_result_settles_once memory_codec example_behaviour
                (exec (call "slow" [] tick) endpoint_A) tick "slow" 0 0 Hfly)
    as [(Hrejected & Hgone & Hspent & _) _].
  exact (conj Hfly (conj Hrejected (conj Hgone Hspent))).
Defined.

(** C3 fails on the code: two calls in the same millisecond get the same
    id.  [A] calls [f] and then [g] at the same clock reading.  Both
    promises are pending, but the table holds one entry, that of [g].  [B]
    answers both ([f] gives 1, [g] gives 2): the result of [f] settles the
    call of [g], the result of [g] is dropped, the call of [f] stays
    pending.  And should the timer of [f] run first, it deletes the entry
    of [g] and cancels the timer of [g], which then never settles. *)
Theorem same_tick_calls_share_id :
  let a1 := exec (call "f" [] tick) endpoint_A in
  let a2 := exec (call "g" [] tick) a1 in
  let b1 := receive example_behaviour origin_A origin_B (sent endpoint_A a2) endpoint_B in
  let a3 := receive example_behaviour origin_B origin_A (sent endpoint_B b1) a2 in
  let a4 := exec (fireTimeout 0) a2 in
  promises a2 = [Pending; Pending]
  /\ map_to_list (pendingFunctionCalls a2)
     = [(tick, {| timeout := 1; resolve := 1; reject := 1 |})]
  /\ invoked b1 = [(6, []); (7, [])]
  /\ promises a3 = [Pending; Resolved (VNum 1)]
  /\ promises a4 = [Rejected (VError "f timed out after 50ms"); Pending]
  /\ timers a4 = [Spent; Spent]
  /\ pendingFunctionCalls a4 !! tick = None.
Proof. vm_compute. repeat split; reflexivity. Qed.

(** C1 fails on the code, by the defect of C3.  [A] calls [f] and then
    [double] with 5 in the same millisecond; [B] has listeners for both,
    and the one for [double] gives 10 on 5.  [B] answers [f] first, with
    1: that answer finds the entry of [double] under the shared id, so
    the call of [double] is resolved with 1, not with 10, and the call of
    [f] is settled by no result. *)
Theorem same_tick_call_gets_other_value :
  let a1 := exec (call "f" [] tick) endpoint_A in
  let a2 := exec (call "double" [VNum 5] tick) a1 in
  let b1 := receive example_behaviour origin_A origin_B (sent endpoint_A a2) endpoint_B in
  let a3 := receive example_behaviour origin_B origin_A (sent endpoint_B b1) a2 in
  listeners endpoint_B !! "function:double" = Some [1]
  /\ awaited (example_behaviour 1 [VNum 5]) = Resolved (VNum 10)
  /\ invoked b1 = [(6, []); (1, [VNum 5])]
  /\ promises a3 = [Pending; Resolved (VNum 1)]
  /\ pendingFunctionCalls a3 !! tick = None.
Proof. vm_compute. repeat split; reflexivity. Qed.

(** C2 fails on the code, by the defect of C3.  [A] calls [f] and then
    [g] in the same millisecond, and no result ever arrives.  The call of
    [g] is in flight; the timer of [f] runs first, rejects [f], deletes
    the entry of [g] and clears the timer of [g].  Nothing is left to
    reject [g]: its timer is spent without having run, and its promise
    stays pending. *)
Theorem same_tick_timeout_strands_call :
  let a1 := exec (call "f" [] tick) endpoint_A in
  let a2 := exec (call "g" [] tick) a1 in
  let a3 := exec (fireTimeout 0) a2 in
  let a4 := exec (fireTimeout 1) a3 in
  in_flight a2 tick "g" 1 1
  /\ promises a3 = [Rejected (VError "f timed out after 50ms"); Pending]
  /\ timers a3 = [Spent; Spent]
  /\ pendingFunctionCalls a3 !! tick = None
  /\ promises a4 = [Rejected (VError "f timed out after 50ms"); Pending]
  /\ posted a4 = posted a2.
Proof. vm_compute. repeat split; reflexivity. Qed.

(** C4 fails on the code: with listeners 2 and 3 registered in that
    order, where 2 throws, a broadcast calls 2 and does not call 3. *)
Lemma broadcast_stops_at_throw :
  let s := exec (on "broadcast" 3) (exec (on "broadcast" 2) endpoint_A) in
  let ev := example_event (VObject [("data", VNum 1); ("type", VStr "broadcast");
                                    ("channel", VStr "__framecast_c1")]) in
  listeners s !! "broadcast" = Some [2; 3]
  /\ example_behaviour 2 [VNum 1] = Throws (VError "boom")
  /\ invoked (exec (handlePostedMessage example_behaviour ev) s) = [(2, [VNum 1])].
Proof. vm_compute. repeat split; reflexivity. Qed.

Lemma broadcast_until_first_throw_witness :
  let s := exec (on "broadcast" 3) (exec (on "broadcast" 2) endpoint_A) in
  outcome_of (handleBroadcast example_behaviour (VNum 1)) s = Thrown (VError "boom")
  /\ drop (length (invoked s))
          (invoked (exec (handleBroadcast example_behaviour (VNum 1)) s))
     = [(2, [VNum 1])].
Proof.
  refine (proj2 (@broadcast_until_first_throw memory_codec example_behaviour
                   (exec (on "broadcast" 3) (exec (on "broadcast" 2) endpoint_A))
                   (VNum 1) [2; 3] eq_refl)
                [] 2 [3] (VError "boom") eq_refl _ eq_refl).
  intros x Hx. by apply elem_of_nil in Hx.
Defined.

(** C5 fails on the code as the claim spells the key: on channel [c1]
    the key is ["__framecast_c1"], and with no channel id it is
    ["__framecast"]. *)
Lemma channel_key_is_not_channel :
  channel endpoint_A = "__framecast_c1"
  /\ String.eqb (channel endpoint_A) "__channel_c1" = false
  /\ channel (@new_Framecast memory_codec 0 default_config) = "__framecast"
  /\ String.eqb (channel (@new_Framecast memory_codec 0 default_config)) "__channel" = false.
Proof. vm_compute. repeat split; reflexivity. Qed.

Lemma channel_key_gates_dispatch_witness :
  let ev := example_event (VObject [("id", VNum 7); ("args", VArray [VNum 5]);
                                    ("type", VStr "function:double");
                                    ("channel", VStr "__framecast_c1")]) in
  exists fs, @parse memory_codec (data ev) = Some (VObject fs)
             /\ assoc "channel" fs = Some (VStr (channel endpoint_B)).
Proof.
  refine (proj2 (proj2 (@channel_key_gates_dispatch memory_codec example_behaviour
                          endpoint_B)) _ _).
  intros E.
  apply (f_equal (fun r => length (invoked (snd r)))) in E.
  vm_compute in E. discriminate E.
Defined.

Lemma single_listener_per_function_witness :
  on "function:double" 9 endpoint_B
  = (Thrown (VError "Listener already exists for function:double"), endpoint_B)
  /\ listeners (exec (on "function:double" 9) (exec (off "function:double" 1) endpoint_B))
       !! "function:double" = Some [9]
  /\ listeners (exec (on "broadcast" 9) endpoint_B) !! "broadcast" = Some [3; 4; 9].
Proof.
  pose proof (@single_listener_per_function memory_codec endpoint_B
                "function:double" 1 9 eq_refl eq_refl)
    as (Hthrows & (_ & Hsecond) & _ & Hbroadcast & _).
  exact (conj Hthrows (conj Hsecond Hbroadcast)).
Defined.

(** C10 fails on the code as stated: with listener 2, which throws,
    registered before callback 8, a dispatch after registering 8 twice
    does not call 8 at all. *)
Lemma earlier_throw_skips_callback :
  let s := exec (on "broadcast" 8)
             (exec (on "broadcast" 8) (exec (on "broadcast" 2) endpoint_A)) in
  listeners s !! "broadcast" = Some [2; 8]
  /\ times_called 8
       (drop (length (invoked s))
          (invoked (exec (handleBroadcast example_behaviour (VNum 1)) s))) = 0%nat.
Proof. vm_compute. split; reflexivity. Qed.

(** On [B], callback 8 registered twice after listeners 3 and 4, which
    do not throw: one registration, one call. *)
Lemma on_broadcast_idempotent_witness :
  let s1 := exec (on "broadcast" 8) endpoint_B in
  let s2 := exec (on "broadcast" 8) s1 in
  s2 = s1
  /\ times_called 8
       (drop (length (invoked s2))
          (invoked (exec (handleBroadcast example_behaviour (VNum 1)) s2))) = 1%nat.
Proof.
  assert (Hnd : NoDup [3%nat; 4%nat]).
  { apply NoDup_cons. split; [| apply NoDup_singleton].
    intros Hin. apply list_elem_of_singleton in Hin. discriminate Hin. }
  pose proof (@on_broadcast_idempotent memory_codec example_behaviour
                endpoint_B 8 [3; 4] (VNum 1) eq_refl Hnd)
    as (Hsame & (set2 & Hreg & _ & _ & Honce) & _).
  split; [exact Hsame|].
  apply (Honce [3; 4] []).
  - vm_compute in Hreg. by injection Hreg as <-.
  - intros l Hl.
    apply elem_of_cons in Hl as [-> | Hl]; [reflexivity|].
    apply list_elem_of_singleton in Hl. by subst.
Defined.

Lemma inbound_function_call_witness :
  let ev := example_event (VObject [("id", VNum 7); ("args", VArray [VNum 5]);
                                    ("type", VStr "function:double");
                                    ("channel", VStr "__framecast_c1")]) in
  handlePostedMessage example_behaviour ev endpoint_B
  = (Done tt,
     with_posted
       (fun q => q ++ [envelope endpoint_B "functionResult"
                         [("id", VNum 7); ("result", VNum 10)]])
       (with_invoked (fun i => i ++ [(1, [VNum 5])]) endpoint_B)).
Proof.
  refine (proj1 (proj2 (@inbound_function_call memory_codec example_behaviour
                          endpoint_B
                          (example_event
                             (VObject [("id", VNum 7); ("args", VArray [VNum 5]);
                                       ("type", VStr "function:double");
                                       ("channel", VStr "__framecast_c1")]))
                          [("id", VNum 7); ("args", VArray [VNum 5]);
                           ("type", VStr "function:double");
                           ("channel", VStr "__framecast_c1")]
                          "double"
                          (conj eq_refl (conj eq_refl eq_refl)) eq_refl)
                   1 [VNum 5] eq_refl eq_refl) (VNum 10) eq_refl).
Defined.

Lemma foreign_message_dropped_witness :
  let ev := example_event (VObject [("data", VNum 1); ("type", VStr "broadcast");
                                    ("channel", VStr "__framecast_other")]) in
  handlePostedMessage example_behaviour ev endpoint_B = (Done tt, endpoint_B).
Proof.
  refine (@foreign_message_dropped memory_codec example_behaviour endpoint_B _ _).
  right. right. eexists. split; [reflexivity|].
  intros E. vm_compute in E. discriminate E.
Defined.

Lemma call_timeout_guard_witness :
  let s := @new_Framecast memory_codec 0
             {| Config.origin := None; Config.channel := None;
                Config.functionTimeoutMs := Some (-5)%Z;
                Config.supportEvaluate := false |} in
  pendingFunctionCalls (exec (call "f" [] tick) s) !! tick
  = Some {| timeout := 0; resolve := 0; reject := 0 |}
  /\ length (posted (exec (call "f" [] tick) s)) = 1%nat.
Proof.
  cbn zeta. unfold exec.
  rewrite (proj2 (proj2 (@call_timeout_guard memory_codec
                           (@new_Framecast memory_codec 0
                              {| Config.origin := None; Config.channel := None;
                                 Config.functionTimeoutMs := Some (-5)%Z;
                                 Config.supportEvaluate := false |})
                           "f" [] tick)) (-5)%Z eq_refl ltac:(discriminate)).
  split; reflexivity.
Defined.

(** ** The rest of the class

    The constructor with its merge of the given options over the defaults,
    and properties of the methods beyond the claims: what an inbound
    message can and cannot do to an endpoint, the registry as a set, the
    outcomes of a remote call other than a returned value, and calls with
    distinct ids. *)

(** [Partial<FramecastConfig>]: an option is given or left out. *)
Module Partial.
Record t := make {
  origin : option (option string);
  channel : option (option string);
  functionTimeoutMs : option (option Z);
  supportEvaluate : option bool
}.
End Partial.

(** [{ ...this.config, ...config }], [config] itself being optional. *)
Definition merge (defaults : Config.t) (given : option Partial.t) : Config.t :=
  match given with
  | None => defaults
  | Some c =>
      {| Config.origin := default (Config.origin defaults) (Partial.origin c);
         Config.channel := default (Config.channel defaults) (Partial.channel c);
         Config.functionTimeoutMs :=
           default (Config.functionTimeoutMs defaults) (Partial.functionTimeoutMs c);
         Config.supportEvaluate :=
           default (Config.supportEvaluate defaults) (Partial.supportEvaluate c) |}
  end.

(** [new Framecast(target, config)]; [target] is a reference to a window,
    or absent. *)
Definition constructor `{Codec} (evaluate_listener : fnref)
    (target : option nat) (given : option Partial.t) : outcome Framecast :=
  match target with
  | None => Thrown (VError "Framecast must be initialized with a window object")
  | Some _ => Done (new_Framecast evaluate_listener (merge default_config given))
  end.

Section Coverage.

Context `{Codec}.
Variable behaviour : fnref -> list value -> completion.
Variable evaluate_listener : fnref.

#[local] Existing Instances M_ret M_bind.

Ltac step :=
  unfold exec, outcome_of, mbind, M_bind, bind, mret, M_ret, ret, gets, modify, throw,
    try_catch, spawn in *;
  cbn beta iota delta [fst snd] in *.

(** *** Vocabulary *)

(** In every set of the registry a listener occurs once, and a set under
    a [function:] key holds at most one listener. *)
Definition registry_ok (s : Framecast) : Prop :=
  forall key set, listeners s !! key = Some set ->
    NoDup set /\ (String.prefix "function:" key = true -> (length set <= 1)%nat).

(** A posted message is addressed to the configured origin and carries
    the endpoint's channel key. *)
Definition well_addressed (s : Framecast) (m : raw * string) : Prop :=
  snd m = origin s /\
  exists fs, parse (fst m) = Some (VObject fs)
             /\ assoc "channel" fs = Some (VStr (channel s)).

(** What the caller's promise ends in, given what the listener's promise
    ends in on the other side: an error travels as the [error] property
    of the result, which the caller tests for truthiness. *)
Definition carried (st : settled) : settled :=
  match st with
  | Pending => Pending
  | Resolved v => Resolved v
  | Rejected e => if truthy e then Rejected e else Resolved VUndefined
  end.

(** What an inbound message may do to an endpoint: nothing; call
    listeners (a broadcast), perhaps leaving a rejection unhandled; settle
    one pending call (a result); call listeners and post at most one
    [functionResult] (a call). *)
Inductive inbound_effect (s : Framecast) : Framecast -> Prop :=
| effect_none : inbound_effect s s
| effect_broadcast calls errs :
    inbound_effect s
      (with_unhandled (fun u => u ++ errs) (with_invoked (fun i => i ++ calls) s))
| effect_result id pc p st :
    pendingFunctionCalls s !! id = Some pc ->
    inbound_effect s
      (with_promises (settle_in p st)
         (with_timers (fun ts => <[timeout pc := Spent]> ts)
            (with_pending (fun m => delete id m) s)))
| effect_call calls msgs :
    (msgs = [] \/
     exists id k x, (k = "result" \/ k = "error")
       /\ msgs = [envelope s "functionResult" [("id", id); (k, x)]]) ->
    inbound_effect s
      (with_posted (fun q => q ++ msgs) (with_invoked (fun i => i ++ calls) s)).

(** *** Frames of the handlers *)

Lemma with_invoked_nil (s : Framecast) : with_invoked (fun i => i ++ []) s = s.
Proof. unfold with_invoked. rewrite app_nil_r. by destruct s. Qed.

Lemma with_posted_nil (s : Framecast) : with_posted (fun q => q ++ []) s = s.
Proof. unfold with_posted. rewrite app_nil_r. by destruct s. Qed.

Lemma with_unhandled_nil (s : Framecast) : with_unhandled (fun u => u ++ []) s = s.
Proof. unfold with_unhandled. rewrite app_nil_r. by destruct s. Qed.

Lemma with_invoked_cons (s : Framecast) c calls :
  with_invoked (fun i => i ++ calls) (with_invoked (fun i => i ++ [c]) s)
  = with_invoked (fun i => i ++ c :: calls) s.
Proof. unfold with_invoked. cbn. by rewrite <- app_assoc. Qed.

Lemma for_of_cons {A} l set (body : fnref -> A -> M A) acc (s : Framecast) :
  for_of (l :: set) body acc s =
  match body l acc s with
  | (Done a, s') => for_of set body a s'
  | (Thrown e, s') => (Thrown e, s')
  | (Suspended, s') => (Suspended, s')
  end.
Proof. reflexivity. Qed.

Lemma apply_await l args (s : Framecast) :
  (c ← apply behaviour l args; await c) s =
  match argument_list args with
  | None => (Thrown TypeError, s)
  | Some al =>
      (match awaited (behaviour l al) with
       | Resolved v => Done v
       | Rejected e => Thrown e
       | Pending => Suspended
       end,
       with_invoked (fun i => i ++ [(l, al)]) s)
  end.
Proof.
  unfold apply, await. step. destruct (argument_list args) as [al|]; [| done].
  cbn. by destruct (behaviour l al) as [v | [| v | e] | e].
Qed.

Lemma for_of_await set args acc (s : Framecast) :
  exists calls o,
    for_of set (fun listener _ => c ← apply behaviour listener args; await c) acc s
    = (o, with_invoked (fun i => i ++ calls) s).
Proof.
  revert acc s. induction set as [|l set IH]; intros acc s.
  - exists [], (Done acc). cbn. by rewrite with_invoked_nil.
  - rewrite for_of_cons, apply_await.
    destruct (argument_list args) as [al|];
      [| exists [], (Thrown TypeError); by rewrite with_invoked_nil].
    destruct (awaited (behaviour l al)) as [| v | e].
    1, 3: by eexists [(l, al)], _.
    destruct (IH v (with_invoked (fun i => i ++ [(l, al)]) s)) as (calls & o & E).
    exists ((l, al) :: calls), o. by rewrite E, with_invoked_cons.
Qed.

Lemma handleFunctionCall_effect t id args (s : Framecast) :
  exists calls msgs o,
    handleFunctionCall behaviour t id args s
    = (o, with_posted (fun q => q ++ msgs) (with_invoked (fun i => i ++ calls) s))
    /\ (o = Done tt \/ o = Suspended)
    /\ (msgs = [] \/
        exists k x, (k = "result" \/ k = "error")
          /\ msgs = [envelope s "functionResult" [("id", id); (k, x)]]).
Proof.
  destruct (listeners s !! t) as [set|] eqn:Hreg.
  2: { exists [], [envelope s "functionResult"
                    [("id", id); ("error", VError ("No listeners for " +:+ t))]], (Done tt).
       rewrite with_invoked_nil. split; [| split; [by left | right; eauto]].
       apply handleFunctionCall_unregistered. by left. }
  destruct set as [|l set].
  { exists [], [envelope s "functionResult"
                 [("id", id); ("error", VError ("No listeners for " +:+ t))]], (Done tt).
    rewrite with_invoked_nil. split; [| split; [by left | right; eauto]].
    apply handleFunctionCall_unregistered. by right. }
  destruct (for_of_await (default [] (Some (l :: set))) args VUndefined s)
    as (calls & o & E).
  unfold handleFunctionCall, postMessage. step. rewrite Hreg.
  cbn [length Nat.eqb]. cbn beta iota. rewrite E.
  destruct o as [v | e |].
  - exists calls, [envelope s "functionResult" [("id", id); ("result", v)]], (Done tt).
    split; [done | split; [by left | right; eauto]].
  - exists calls, [envelope s "functionResult" [("id", id); ("error", e)]], (Done tt).
    split; [done | split; [by left | right; eauto]].
  - exists calls, [], Suspended. rewrite with_posted_nil.
    split; [done | split; [by right | by left]].
Qed.

Lemma drop_untyped (s : Framecast) ev fs :
  accepted s ev fs ->
  (forall t, assoc "type" fs <> Some (VStr t)) ->
  handlePostedMessage behaviour ev s = (Done tt, s).
Proof.
  intros (Hparse & Horigin & Hchannel) Htype.
  assert (Hgate : negb (String.eqb (origin s) "*")
                  && negb (String.eqb (event_origin ev) (origin s)) = false).
  { rewrite origin_gate. by rewrite Horigin. }
  unfold handlePostedMessage, get, startsWith. step.
  rewrite Hparse, Hgate, Hchannel. cbn. rewrite String.eqb_refl. cbn.
  destruct (assoc "type" fs) as [[| | | |t| | |]|]; try done.
  by destruct (Htype t).
Qed.

Lemma handlePostedMessage_cases (s : Framecast) ev :
  handlePostedMessage behaviour ev s = (Done tt, s) \/
  exists fs t, accepted s ev fs /\ assoc "type" fs = Some (VStr t).
Proof.
  destruct (parse (data ev)) as [d|] eqn:Hparse; [| left; by apply drop_undecodable].
  destruct (origin_accepted s ev) eqn:Horigin; [| left; by apply drop_foreign_origin].
  assert (Hforeign : channel_field d <> Some (VStr (channel s)) ->
                     handlePostedMessage behaviour ev s = (Done tt, s)).
  { intros Hch. by apply (drop_foreign_channel behaviour s ev d). }
  destruct d as [| | | | | | |fs]; try (left; by apply Hforeign).
  unfold channel_field, field in Hforeign.
  destruct (assoc "channel" fs) as [c|] eqn:Hchannel; [| left; by apply Hforeign].
  destruct c as [| | | |c| | |]; try (left; by apply Hforeign).
  destruct (String.eqb_spec c (channel s)) as [-> | Hne];
    [| left; apply Hforeign; cbn; congruence].
  assert (Hacc : accepted s ev fs) by done.
  destruct (assoc "type" fs) as [[| | | |t| | |]|] eqn:Htype;
    try (left; apply (drop_untyped s ev fs Hacc); intros t'; congruence).
  right. by exists fs, t.
Qed.

Lemma handleFunctionResult_effect fs (s : Framecast) :
  handleFunctionResult (VObject fs) s = (Done tt, s) \/
  exists id pc,
    assoc "id" fs = Some (VNum id)
    /\ pendingFunctionCalls s !! id = Some pc
    /\ handleFunctionResult (VObject fs) s =
       (Done tt,
        with_promises
          (settle_in (if truthy (field fs "error") then reject pc else resolve pc)
             (settlement fs))
          (with_timers (fun ts => <[timeout pc := Spent]> ts)
             (with_pending (fun m => delete id m) s))).
Proof.
  destruct (Map_get (field fs "id") (pendingFunctionCalls s)) as [pc|] eqn:Hget;
    [| left; by apply handleFunctionResult_unknown].
  unfold field in Hget.
  destruct (assoc "id" fs) as [[| | |id| | | |]|] eqn:Hid; try discriminate.
  right. exists id, pc. split; [done | split; [done|]].
  by apply handleFunctionResult_pending.
Qed.

Lemma handlePostedMessage_effect (s : Framecast) ev :
  exists s', handlePostedMessage behaviour ev s = (Done tt, s') /\ inbound_effect s s'.
Proof.
  destruct (handlePostedMessage_cases s ev) as [Hdrop | (fs & t & Hacc & Htype)].
  { exists s. split; [done | constructor]. }
  rewrite (handlePostedMessage_accepted behaviour s ev fs t Hacc Htype).
  destruct (String.eqb t "broadcast").
  { unfold spawn. rewrite handleBroadcast_run.
    destruct (first_thrown behaviour _ _) as [e|].
    - eexists. split; [done | apply effect_broadcast].
    - eexists. split; [done|].
      rewrite <- (with_unhandled_nil (with_invoked _ s)). apply effect_broadcast. }
  destruct (String.eqb t "functionResult").
  { destruct (handleFunctionResult_effect fs s) as [E | (id & pc & _ & Hpc & E)];
      rewrite (spawn_done _ _ _ E); eexists; (split; [done|]).
    - constructor.
    - by apply effect_result. }
  destruct (String.prefix "function:" t); [| exists s; split; [done | constructor]].
  destruct (handleFunctionCall_effect t (field fs "id") (field fs "args") s)
    as (calls & msgs & o & E & Ho & Hmsgs).
  unfold spawn. rewrite E. eexists. split.
  - by destruct Ho as [-> | ->].
  - apply effect_call. destruct Hmsgs as [? | (k & x & ? & ?)]; [by left|].
    right. by exists (field fs "id"), k, x.
Qed.

Lemma settle_in_length p st ps : length (settle_in p st ps) = length ps.
Proof.
  unfold settle_in. destruct (ps !! p) as [[| |]|]; try done. apply length_insert.
Qed.

Lemma fireTimeout_effect h (s : Framecast) :
  fireTimeout h s = (Done tt, s) \/
  exists task,
    timers s !! h = Some (Armed task)
    /\ exists pending' timers',
         fireTimeout h s =
         (Done tt,
          with_promises
            (settle_in (task_reject task)
               (Rejected (timeout_error s (task_functionName task))))
            (with_timers (fun _ => timers')
               (with_pending (fun _ => pending') s)))
         /\ pending' ⊆ pendingFunctionCalls s
         /\ length timers' = length (timers s).
Proof.
  destruct (timers s !! h) as [[task|]|] eqn:Ht.
  2, 3: left; unfold fireTimeout; step; by rewrite Ht.
  right. exists task. split; [done|].
  unfold fireTimeout, onTimeout, clearPendingFunctionCall, clearTimeout, settle. step.
  rewrite Ht. cbn.
  destruct (pendingFunctionCalls s !! task_id task) as [pc|] eqn:Hpc;
    repeat (rewrite Hpc; cbn).
  - eexists (delete (task_id task) (pendingFunctionCalls s)), _.
    split; [reflexivity | split; [apply delete_subseteq |]].
    cbn. by rewrite !length_insert.
  - eexists (pendingFunctionCalls s), _.
    split; [reflexivity | split; [done |]].
    cbn. by rewrite length_insert.
Qed.

(** *** What an inbound message can do *)

(** X1.  [handlePostedMessage] returns normally on every raw message, in
    every state: nothing a message holds makes it throw. *)
Theorem handlePostedMessage_never_throws (s : Framecast) ev :
  outcome_of (handlePostedMessage behaviour ev) s = Done tt.
Proof.
  unfold outcome_of. by destruct (handlePostedMessage_effect s ev) as (s' & -> & _).
Qed.

Lemma handlePostedMessage_frame (s : Framecast) ev :
  let s' := exec (handlePostedMessage behaviour ev) s in
  config s' = config s
  /\ listeners s' = listeners s
  /\ pendingFunctionCalls s' ⊆ pendingFunctionCalls s
  /\ length (timers s') = length (timers s)
  /\ length (promises s') = length (promises s).
Proof.
  cbn zeta. unfold exec. destruct (handlePostedMessage_effect s ev) as (s' & -> & Heff).
  destruct Heff; cbn; try done.
  repeat split; [apply delete_subseteq | apply length_insert | apply settle_in_length].
Qed.

Lemma receive_cons sender receiver m msgs (s : Framecast) :
  receive behaviour sender receiver (m :: msgs) s =
  receive behaviour sender receiver msgs
    (if deliverable (snd m) receiver
     then exec (handlePostedMessage behaviour {| data := fst m; event_origin := sender |}) s
     else s).
Proof. reflexivity. Qed.

(** X2.  No inbound traffic changes the configuration or the listener
    registry of an endpoint: after any sequence of messages the transport
    hands over, both are as before. *)
Theorem inbound_traffic_keeps_registry (s : Framecast) sender receiver msgs :
  config (receive behaviour sender receiver msgs s) = config s
  /\ listeners (receive behaviour sender receiver msgs s) = listeners s.
Proof.
  revert s. induction msgs as [|m msgs IH]; intros s; [done|].
  rewrite receive_cons. destruct (IH (if deliverable (snd m) receiver
    then exec (handlePostedMessage behaviour {| data := fst m; event_origin := sender |}) s
    else s)) as [-> ->].
  destruct (deliverable (snd m) receiver); [| done].
  by destruct (handlePostedMessage_frame s {| data := fst m; event_origin := sender |})
    as (-> & -> & _).
Qed.


Lemma sent_same (s s' : Framecast) : posted s' = posted s -> sent s s' = [].
Proof. intros E. unfold sent. rewrite E. by apply drop_all. Qed.

Lemma sent_app (s s' : Framecast) msgs :
  posted s' = posted s ++ msgs -> sent s s' = msgs.
Proof. intros E. unfold sent. rewrite E. by apply drop_app_length. Qed.

Lemma assoc_app k fs fs' :
  assoc k (fs ++ fs') = match assoc k fs with Some v => Some v | None => assoc k fs' end.
Proof.
  induction fs as [|[k' v] fs IH]; [done|]. cbn. by destruct (String.eqb k k').
Qed.

Lemma envelope_well_addressed (s : Framecast) type message :
  assoc "channel" message = None -> well_addressed s (envelope s type message).
Proof.
  intros Hfree. split; [done|]. eexists. split; [apply parse_stringify|].
  by rewrite assoc_app, Hfree.
Qed.

Lemma reply_well_addressed (s : Framecast) id k x :
  k = "result" \/ k = "error" ->
  well_addressed s (envelope s "functionResult" [("id", id); (k, x)]).
Proof. intros [-> | ->]; by apply envelope_well_addressed. Qed.

(** X4.  Every message an endpoint posts, whichever method posts it, is
    addressed to the configured origin and decodes to an object whose
    [channel] is the endpoint's channel key; a timer posts nothing. *)
Theorem posted_messages_are_well_addressed (s : Framecast) :
  (forall name args now,
     Forall (well_addressed s) (sent s (exec (call name args now) s)))
  /\ (forall d, Forall (well_addressed s) (sent s (exec (broadcast d) s)))
  /\ (forall ev,
      Forall (well_addressed s) (sent s (exec (handlePostedMessage behaviour ev) s)))
  /\ (forall h, sent s (exec (fireTimeout h) s) = []).
Proof.
  split; [| split; [| split]].
  - intros name args now. unfold exec.
    destruct (falsy (Config.functionTimeoutMs (config s))) eqn:Hms.
    + rewrite call_refused by done. by rewrite sent_same.
    + rewrite call_issued by done. erewrite sent_app by reflexivity.
      apply Forall_singleton. by apply envelope_well_addressed.
  - intros d. unfold exec, broadcast, postMessage. step.
    erewrite sent_app by reflexivity.
    apply Forall_singleton. by apply (envelope_well_addressed s "broadcast" [("data", d)]).
  - intros ev. unfold exec.
    destruct (handlePostedMessage_effect s ev) as (s' & -> & Heff). cbn [snd].
    destruct Heff as [| | |calls msgs Hmsgs]; try (by rewrite sent_same).
    erewrite sent_app by reflexivity.
    destruct Hmsgs as [-> | (id & k & x & Hk & ->)]; [done|].
    apply Forall_singleton. by apply reply_well_addressed.
  - intros h. unfold exec.
    destruct (fireTimeout_effect h s) as [-> | (task & _ & pe & ti & -> & _)];
      by rewrite sent_same.
Qed.


(** X6.  A message that passed the origin and channel checks but whose
    [type] is missing, is not a string, or is a string other than
    [broadcast], [functionResult] and those starting with [function:],
    is ignored: the endpoint and its host stay exactly as they are. *)
Theorem unknown_message_type_ignored (s : Framecast) ev fs :
  accepted s ev fs ->
  (forall t, assoc "type" fs = Some (VStr t) ->
     String.eqb t "broadcast" = false
     /\ String.eqb t "functionResult" = false
     /\ String.prefix "function:" t = false) ->
  handlePostedMessage behaviour ev s = (Done tt, s).
Proof.
  intros Hacc Hunknown.
  destruct (assoc "type" fs) as [[| | | |t| | |]|] eqn:Htype;
    try (apply (drop_untyped s ev fs Hacc); intros t'; congruence).
  destruct (Hunknown t eq_refl) as (Hb & Hr & Hc).
  rewrite (handlePostedMessage_accepted behaviour s ev fs t Hacc Htype).
  by rewrite Hb, Hr, Hc.
Qed.

(** *** The registry *)

Lemma on_effect (s : Framecast) key cb :
  (exists e, on key cb s = (Thrown e, s)) \/
  (on key cb s =
   (Done tt,
    with_listeners
      (fun m => <[key := Set_add cb (default [] (listeners s !! key))]> m) s)
   /\ (String.prefix "function:" key = true -> default [] (listeners s !! key) = [])).
Proof.
  unfold on. step. destruct (listeners s !! key) as [set|] eqn:Hreg; cbn.
  - rewrite Hreg. cbn.
    destruct (String.prefix "function:" key); cbn; [| by right].
    destruct set; cbn; [by right | left; by eexists].
  - rewrite lookup_insert_eq. cbn. rewrite andb_false_r. right. split; [| done].
    unfold with_listeners. cbn. by rewrite insert_insert_eq.
Qed.

Lemma off_effect (s : Framecast) key cb :
  off key cb s =
  (Done tt,
   match listeners s !! key with
   | Some set => with_listeners (fun m => <[key := Set_delete cb set]> m) s
   | None => s
   end).
Proof. unfold off. step. by destruct (listeners s !! key). Qed.

Lemma Set_delete_absent cb set : Set_has cb set = false -> Set_delete cb set = set.
Proof.
  unfold Set_has, Set_delete. induction set as [|y set IH]; [done|]. cbn.
  intros Hh. apply orb_false_elim in Hh as [Hy Hh]. rewrite Hy. cbn. by rewrite IH.
Qed.

Lemma Set_delete_added cb set :
  Set_has cb set = false -> Set_delete cb (Set_add cb set) = set.
Proof.
  intros Hh. unfold Set_add. rewrite Hh. unfold Set_delete.
  rewrite List.filter_app. cbn. rewrite Nat.eqb_refl. cbn. rewrite app_nil_r.
  by apply Set_delete_absent.
Qed.

Lemma Set_delete_NoDup cb set : NoDup set -> NoDup (Set_delete cb set).
Proof.
  induction 1 as [|x set Hx Hnd IH]; [apply NoDup_nil_2|].
  unfold Set_delete in *. cbn. destruct (negb (Nat.eqb cb x)); [| done].
  apply NoDup_cons. split; [| done].
  intros Hin. apply Hx. apply list_elem_of_In, filter_In in Hin as [Hin _].
  by apply list_elem_of_In.
Qed.

Lemma Set_delete_length cb set : (length (Set_delete cb set) <= length set)%nat.
Proof.
  unfold Set_delete. induction set as [|x set IH]; [done|]. cbn.
  destruct (negb (Nat.eqb cb x)); cbn; lia.
Qed.

Lemma with_listeners_id (s : Framecast) key set :
  listeners s !! key = Some set ->
  with_listeners (fun m => <[key := set]> m) s = s.
Proof. intros Hreg. unfold with_listeners. rewrite insert_id by done. by destruct s. Qed.

Lemma registry_ok_insert (s : Framecast) key set :
  registry_ok s ->
  NoDup set ->
  (String.prefix "function:" key = true -> (length set <= 1)%nat) ->
  registry_ok (with_listeners (fun m => <[key := set]> m) s).
Proof.
  intros Hok Hnd Hone key' set' Hreg. cbn in Hreg.
  destruct (decide (key = key')) as [<- | Hne].
  - rewrite lookup_insert_eq in Hreg. by injection Hreg as <-.
  - rewrite lookup_insert_ne in Hreg by done. by apply Hok.
Qed.

(** X7.  The registry keeps its shape.  In a new endpoint, and after any
    [on], [off], inbound message, [call] or timer from a state where it
    holds, every set of listeners is without repetition and every
    [function:] key has at most one listener. *)
Theorem registry_shape_is_invariant :
  (forall cfg, registry_ok (new_Framecast evaluate_listener cfg))
  /\ (forall (s : Framecast) key cb,
      registry_ok s ->
      registry_ok (exec (on key cb) s) /\ registry_ok (exec (off key cb) s))
  /\ (forall (s : Framecast) ev,
      registry_ok s -> registry_ok (exec (handlePostedMessage behaviour ev) s))
  /\ (forall (s : Framecast) name args now,
      registry_ok s -> registry_ok (exec (call name args now) s))
  /\ (forall (s : Framecast) h,
      registry_ok s -> registry_ok (exec (fireTimeout h) s)).
Proof.
  assert (Hon : forall (s : Framecast) key cb,
            registry_ok s -> registry_ok (exec (on key cb) s)).
  { intros s key cb Hok. unfold exec.
    destruct (on_effect s key cb) as [[e ->] | [-> Hfree]]; [done|]. cbn [snd].
    apply registry_ok_insert; [done | |].
    - apply Set_add_NoDup. destruct (listeners s !! key) as [set|] eqn:Hreg.
      + by apply (Hok key set).
      + apply NoDup_nil_2.
    - intros Hkey. by rewrite (Hfree Hkey). }
  split; [| split; [| split; [| split]]].
  - intros cfg. unfold new_Framecast.
    set (s0 := Build_Framecast _ _ _ _ _ _ _ _).
    assert (Hok : registry_ok s0).
    { intros key set Hreg. cbn in Hreg.
      apply lookup_singleton_Some in Hreg as [<- <-].
      split; [apply NoDup_nil_2 | done]. }
    destruct (Config.supportEvaluate cfg); [by apply Hon | done].
  - intros s key cb Hok. split; [by apply Hon|].
    unfold exec. rewrite off_effect. cbn [snd].
    destruct (listeners s !! key) as [set|] eqn:Hreg; [| done].
    destruct (Hok key set Hreg) as [Hnd Hone].
    apply registry_ok_insert; [done | by apply Set_delete_NoDup |].
    intros Hkey. pose proof (Set_delete_length cb set). specialize (Hone Hkey). lia.
  - intros s ev Hok key set Hreg.
    destruct (handlePostedMessage_frame s ev) as (_ & Hl & _).
    rewrite Hl in Hreg. by apply Hok.
  - intros s name args now Hok. unfold exec.
    destruct (falsy (Config.functionTimeoutMs (config s))) eqn:Hms.
    + by rewrite call_refused.
    + by rewrite call_issued.
  - intros s h Hok. unfold exec.
    by destruct (fireTimeout_effect h s) as [-> | (task & _ & pe & ti & -> & _)].
Qed.

Lemma called_subseteq d set : called behaviour d set ⊆ set.
Proof.
  induction set as [|y set IH]; [done|]. cbn.
  destruct (behaviour y [d]); intros z Hz.
  all: repeat (apply elem_of_cons in Hz as [-> | Hz]); try (by left);
    try (right; by apply IH); by apply elem_of_nil in Hz.
Qed.

Lemma handleBroadcast_calls (s : Framecast) d :
  drop (length (invoked s)) (invoked (exec (handleBroadcast behaviour d) s))
  = map (fun l => (l, [d]))
      (called behaviour d (default [] (listeners s !! "broadcast"))).
Proof. unfold exec. rewrite handleBroadcast_run. cbn. apply drop_app_length. Qed.

(** X8.  [off] undoes [on]: for a listener that is not registered under
    a key that has a set (an empty one, for a [function:] key), [on]
    followed by [off] leaves the endpoint exactly as it was. *)
Theorem on_then_off_restores (s : Framecast) key cb set :
  listeners s !! key = Some set ->
  Set_has cb set = false ->
  (String.prefix "function:" key = true -> set = []) ->
  outcome_of (on key cb) s = Done tt
  /\ exec (off key cb) (exec (on key cb) s) = s.
Proof.
  intros Hreg Hfresh Hfree. unfold outcome_of, exec.
  destruct (on_effect s key cb) as [[e E] | [E _]].
  { exfalso. unfold on in E. step. rewrite Hreg in E. cbn in E. rewrite Hreg in E.
    cbn in E. destruct (String.prefix "function:" key); [| discriminate].
    rewrite Hfree in E by done. discriminate. }
  rewrite E. cbn [fst snd]. split; [done|].
  rewrite off_effect. cbn [snd]. cbn [listeners with_listeners].
  rewrite lookup_insert_eq, Hreg. cbn [default from_option id].
  rewrite Set_delete_added by done.
  unfold with_listeners. cbn. rewrite insert_insert_eq, insert_id by done.
  by destruct s.
Qed.

(** X9.  For a key of the registry ([broadcast], or one starting with
    [function:]), [off] for a listener that is not registered (no set
    under the key, or a set that does not hold it) does not throw and
    leaves the endpoint exactly as it was. *)
Theorem off_unregistered_is_noop (s : Framecast) key cb :
  key = "broadcast" \/ String.prefix "function:" key = true ->
  (listeners s !! key = None \/
   exists set, listeners s !! key = Some set /\ Set_has cb set = false) ->
  off key cb s = (Done tt, s).
Proof.
  intros _ [Hreg | (set & Hreg & Hfresh)]; rewrite off_effect, Hreg; [done|].
  by rewrite Set_delete_absent, with_listeners_id.
Qed.

(** X10.  A listener removed with [off] is not called by a later
    broadcast, whatever the other listeners do. *)
Theorem removed_listener_not_called (s : Framecast) cb d :
  let s1 := exec (off "broadcast" cb) s in
  times_called cb
    (drop (length (invoked s1)) (invoked (exec (handleBroadcast behaviour d) s1)))
  = 0%nat.
Proof.
  cbn zeta. rewrite handleBroadcast_calls, times_called_map.
  apply occurrences_absent. intros Hin. apply called_subseteq in Hin.
  unfold exec in Hin. rewrite off_effect in Hin. cbn [snd] in Hin.
  destruct (listeners s !! "broadcast") as [set|] eqn:Hreg.
  - cbn in Hin. rewrite lookup_insert_eq in Hin. cbn in Hin.
    by apply Set_delete_not_elem in Hin.
  - rewrite Hreg in Hin. by apply elem_of_nil in Hin.
Qed.

(** *** Remote calls over the transport *)

Lemma call_reaches_peer (a b : Framecast) oa ob name args now :
  peers a b oa ob ->
  falsy (Config.functionTimeoutMs (config a)) = false ->
  receive behaviour oa ob (sent a (exec (call name args now) a)) b
  = exec (spawn (handleFunctionCall behaviour ("function:" +:+ name)
                   (VNum now) (VArray args))) b.
Proof.
  intros (Hchannel & Hab & Hba) Hms. unfold exec at 1.
  rewrite (call_issued a name args now Hms). cbn [snd].
  erewrite sent_app by reflexivity. rewrite receive_one by done.
  set (call_event := {| data := _; event_origin := oa |}).
  assert (Hcall : accepted b call_event
            ([("id", VNum now); ("args", VArray args)]
               ++ [("type", VStr ("function:" +:+ name)); ("channel", VStr (channel a))])).
  { repeat split.
    - apply parse_stringify.
    - by apply deliverable_accepted.
    - cbn. by rewrite Hchannel. }
  pose proof (function_key name) as Hkey.
  destruct (function_prefix_not_broadcast _ Hkey) as [Hnb Hnr].
  unfold exec.
  rewrite (handlePostedMessage_accepted behaviour b call_event _ _ Hcall eq_refl).
  by rewrite Hnb, Hnr, Hkey.
Qed.

Lemma reply_settles_call (a b : Framecast) oa ob name args now k x :
  peers a b oa ob ->
  falsy (Config.functionTimeoutMs (config a)) = false ->
  k = "result" \/ k = "error" ->
  let a1 := exec (call name args now) a in
  receive behaviour ob oa [envelope b "functionResult" [("id", VNum now); (k, x)]] a1
  = with_promises (settle_in (length (promises a)) (settlement [(k, x)]))
      (with_timers (fun ts => <[length (timers a) := Spent]> ts)
         (with_pending (fun m => delete now m) a1)).
Proof.
  intros (Hchannel & Hab & Hba) Hms Hk. cbn zeta. unfold exec.
  rewrite (call_issued a name args now Hms). cbn [snd].
  set (a1 := with_posted _ _).
  rewrite receive_one by done.
  set (result_event := {| data := _; event_origin := ob |}).
  assert (Hentry : pendingFunctionCalls a1 !! now
            = Some {| timeout := length (timers a); resolve := length (promises a);
                      reject := length (promises a) |}) by apply lookup_insert_eq.
  assert (Hresult : result_for a1 now result_event
            ([("id", VNum now); (k, x)]
               ++ [("type", VStr "functionResult"); ("channel", VStr (channel b))])).
  { destruct Hk as [-> | ->].
    all: split; [split; [apply parse_stringify | split] | split]; try done.
    all: try (by apply (deliverable_accepted a1)).
    all: cbn; by rewrite <- Hchannel. }
  unfold exec.
  rewrite (result_settles behaviour a1 now result_event _ _ Hresult Hentry).
  cbn [snd timeout resolve reject].
  by destruct Hk as [-> | ->]; cbn; destruct (truthy x).
Qed.

Lemma round_trip_listener (a b : Framecast) oa ob name args now l :
  peers a b oa ob ->
  falsy (Config.functionTimeoutMs (config a)) = false ->
  listeners b !! ("function:" +:+ name) = Some [l] ->
  let p := length (promises a) in
  let a1 := exec (call name args now) a in
  let b1 := receive behaviour oa ob (sent a a1) b in
  let a2 := receive behaviour ob oa (sent b b1) a1 in
  invoked b1 = invoked b ++ [(l, args)]
  /\ unhandled b1 = unhandled b
  /\ promises a2 !! p = Some (carried (awaited (behaviour l args)))
  /\ (awaited (behaviour l args) = Pending -> sent b b1 = [] /\ a2 = a1)
  /\ (awaited (behaviour l args) <> Pending -> pendingFunctionCalls a2 !! now = None).
Proof.
  intros Hpeers Hms Hreg. cbn zeta.
  rewrite (call_reaches_peer a b oa ob name args now Hpeers Hms).
  pose proof (reply_settles_call a b oa ob name args now) as Hreply.
  cbn zeta in Hreply.
  assert (Hp : promises (exec (call name args now) a) !! length (promises a)
               = Some Pending).
  { unfold exec. rewrite call_issued by done. cbn. apply lookup_snoc. }
  set (b' := with_invoked (fun i => i ++ [(l, args)]) b).
  assert (Hb1 : exec (spawn (handleFunctionCall behaviour ("function:" +:+ name)
                               (VNum now) (VArray args))) b
                = match awaited (behaviour l args) with
                  | Pending => b'
                  | Resolved v =>
                      with_posted (fun q => q ++ [envelope b "functionResult"
                                                    [("id", VNum now); ("result", v)]]) b'
                  | Rejected e =>
                      with_posted (fun q => q ++ [envelope b "functionResult"
                                                    [("id", VNum now); ("error", e)]]) b'
                  end).
  { unfold exec, spawn.
    rewrite (handleFunctionCall_registered behaviour b _ (VNum now) l args Hreg).
    cbn zeta. by destruct (awaited (behaviour l args)). }
  rewrite Hb1. clear Hb1.
  destruct (awaited (behaviour l args)) as [| v | e]; cbn [carried].
  - rewrite sent_same by done. cbn. repeat split; done.
  - erewrite sent_app by reflexivity.
    rewrite (Hreply "result" v Hpeers Hms) by (by left).
    repeat split; try done.
    + cbn. by apply settle_in_pending.
    + intros _. apply lookup_delete_eq.
  - erewrite sent_app by reflexivity.
    rewrite (Hreply "error" e Hpeers Hms) by (by right).
    repeat split; try done.
    + cbn [promises with_promises with_timers with_pending].
      rewrite (settle_in_pending _ _ _ Hp). unfold settlement, field. cbn.
      by destruct (truthy e).
    + intros _. apply lookup_delete_eq.
Qed.

Lemma peer_refuses_call (a b : Framecast) oa ob name args now :
  peers a b oa ob ->
  falsy (Config.functionTimeoutMs (config a)) = false ->
  listeners b !! ("function:" +:+ name) = None
  \/ listeners b !! ("function:" +:+ name) = Some [] ->
  let b1 := receive behaviour oa ob (sent a (exec (call name args now) a)) b in
  invoked b1 = invoked b
  /\ sent b b1 = [envelope b "functionResult"
                    [("id", VNum now);
                     ("error", VError ("No listeners for " +:+ "function:" +:+ name))]].
Proof.
  intros Hpeers Hms Hreg. cbn zeta.
  rewrite (call_reaches_peer a b oa ob name args now Hpeers Hms). unfold exec.
  rewrite (spawn_done _ _ _
    (handleFunctionCall_unregistered behaviour b _ (VNum now) (VArray args) Hreg)).
  cbn [snd]. split; [done|]. by apply sent_app.
Qed.

Lemma peer_answers_call (a b : Framecast) oa ob name args now l :
  peers a b oa ob ->
  falsy (Config.functionTimeoutMs (config a)) = false ->
  listeners b !! ("function:" +:+ name) = Some [l] ->
  let b1 := receive behaviour oa ob (sent a (exec (call name args now) a)) b in
  invoked b1 = invoked b ++ [(l, args)]
  /\ unhandled b1 = unhandled b
  /\ sent b b1 =
     match awaited (behaviour l args) with
     | Pending => []
     | Resolved v => [envelope b "functionResult" [("id", VNum now); ("result", v)]]
     | Rejected e => [envelope b "functionResult" [("id", VNum now); ("error", e)]]
     end.
Proof.
  intros Hpeers Hms Hreg. cbn zeta.
  rewrite (call_reaches_peer a b oa ob name args now Hpeers Hms). unfold exec, spawn.
  rewrite (handleFunctionCall_registered behaviour b _ (VNum now) l args Hreg).
  cbn zeta. destruct (awaited (behaviour l args)); cbn [snd].
  - split; [done | split; [done | by apply sent_same]].
  - split; [done | split; [done | by apply sent_app]].
  - split; [done | split; [done | by apply sent_app]].
Qed.

Lemma reply_settles_in_flight (a a' b : Framecast) oa ob id name p h k x :
  peers a b oa ob ->
  config a' = config a ->
  in_flight a' id name p h ->
  k = "result" \/ k = "error" ->
  receive behaviour ob oa [envelope b "functionResult" [("id", VNum id); (k, x)]] a'
  = with_promises (settle_in p (settlement [(k, x)]))
      (with_timers (fun ts => <[h := Spent]> ts)
         (with_pending (fun m => delete id m) a')).
Proof.
  intros (Hchannel & Hab & Hba) Hcfg (Hentry & _ & _) Hk.
  assert (Hch : channel a' = channel a) by (unfold channel; by rewrite Hcfg).
  assert (Hor : origin a' = origin a) by (unfold origin; by rewrite Hcfg).
  rewrite receive_one by done.
  set (result_event := {| data := _; event_origin := ob |}).
  assert (Hresult : result_for a' id result_event
            ([("id", VNum id); (k, x)]
               ++ [("type", VStr "functionResult"); ("channel", VStr (channel b))])).
  { destruct Hk as [-> | ->].
    all: split; [split; [apply parse_stringify | split] | split]; try done.
    all: try (apply (deliverable_accepted a'); by rewrite Hor).
    all: cbn; by rewrite Hch, Hchannel. }
  unfold exec.
  rewrite (result_settles behaviour a' id result_event _ _ Hresult Hentry).
  cbn [snd timeout resolve reject].
  by destruct Hk as [-> | ->]; cbn; destruct (truthy x).
Qed.

Lemma no_reply_no_change sender receiver (s : Framecast) :
  receive behaviour sender receiver [] s = s.
Proof. reflexivity. Qed.

(** What the caller's promise holds once it has handled what the peer
    posted for the call, in any state where the call is still in
    flight. *)
Lemma answer_settles_in_flight (a a' b : Framecast) oa ob name args now l p h :
  peers a b oa ob ->
  falsy (Config.functionTimeoutMs (config a)) = false ->
  listeners b !! ("function:" +:+ name) = Some [l] ->
  config a' = config a ->
  in_flight a' now name p h ->
  let b1 := receive behaviour oa ob (sent a (exec (call name args now) a)) b in
  let a2 := receive behaviour ob oa (sent b b1) a' in
  promises a2 !! p = Some (carried (awaited (behaviour l args)))
  /\ (awaited (behaviour l args) <> Pending -> pendingFunctionCalls a2 !! now = None).
Proof.
  intros Hpeers Hms Hreg Hcfg Hfly. cbn zeta.
  destruct (peer_answers_call a b oa ob name args now l Hpeers Hms Hreg)
    as (_ & _ & ->).
  pose proof Hfly as (_ & _ & Hp).
  destruct (awaited (behaviour l args)) as [| v | e]; cbn [carried].
  - by rewrite no_reply_no_change.
  - rewrite (reply_settles_in_flight a a' b oa ob now name p h "result" v)
      by (done || by left).
    split; [cbn; by apply settle_in_pending | intros _; apply lookup_delete_eq].
  - rewrite (reply_settles_in_flight a a' b oa ob now name p h "error" e)
      by (done || by right).
    split; [| intros _; apply lookup_delete_eq].
    cbn [promises with_promises with_timers with_pending].
    rewrite (settle_in_pending _ _ _ Hp). unfold settlement, field. cbn.
    by destruct (truthy e).
Qed.

(** X11.  A call of a name for which the peer has no listener: the peer
    calls no listener and answers with the error "No listeners for
    function:<name>".  The call is in flight once made, and in any state
    of the caller where it still is (its own entry in the table, its
    promise pending), handling that answer rejects the promise with the
    error and removes the entry. *)
Theorem call_without_listener_is_rejected (a b : Framecast) oa ob name args now :
  peers a b oa ob ->
  falsy (Config.functionTimeoutMs (config a)) = false ->
  listeners b !! ("function:" +:+ name) = None
  \/ listeners b !! ("function:" +:+ name) = Some [] ->
  let p := length (promises a) in
  let h := length (timers a) in
  let a1 := exec (call name args now) a in
  let b1 := receive behaviour oa ob (sent a a1) b in
  invoked b1 = invoked b
  /\ in_flight a1 now name p h
  /\ (forall a' : Framecast,
      config a' = config a ->
      in_flight a' now name p h ->
      let a2 := receive behaviour ob oa (sent b b1) a' in
      promises a2 !! p
      = Some (Rejected (VError ("No listeners for " +:+ "function:" +:+ name)))
      /\ pendingFunctionCalls a2 !! now = None).
Proof.
  intros Hpeers Hms Hreg. cbn zeta.
  destruct (peer_refuses_call a b oa ob name args now Hpeers Hms Hreg) as [Hcalls ->].
  split; [done | split; [by apply call_in_flight|]].
  intros a' Hcfg Hfly. pose proof Hfly as (_ & _ & Hp).
  rewrite (reply_settles_in_flight a a' b oa ob now name _ _ "error" _ Hpeers Hcfg Hfly)
    by (by right).
  split; [| apply lookup_delete_eq].
  cbn [promises with_promises with_timers with_pending]. by apply settle_in_pending.
Qed.

(** X12.  When the peer's listener raises [e], the peer does not throw:
    it sends [e] back as the [error] of the result.  In any state of the
    caller where the call is still in flight, handling that answer
    rejects the promise with [e] and removes the entry; an [e] that is
    falsy ([undefined], [0], the empty string, ...) does not pass the
    caller's test of [error], and the promise is then resolved with
    [undefined]. *)
Theorem listener_error_is_carried_back (a b : Framecast) oa ob name args now l e :
  peers a b oa ob ->
  falsy (Config.functionTimeoutMs (config a)) = false ->
  listeners b !! ("function:" +:+ name) = Some [l] ->
  awaited (behaviour l args) = Rejected e ->
  let p := length (promises a) in
  let h := length (timers a) in
  let a1 := exec (call name args now) a in
  let b1 := receive behaviour oa ob (sent a a1) b in
  invoked b1 = invoked b ++ [(l, args)]
  /\ unhandled b1 = unhandled b
  /\ sent b b1 = [envelope b "functionResult" [("id", VNum now); ("error", e)]]
  /\ in_flight a1 now name p h
  /\ (forall a' : Framecast,
      config a' = config a ->
      in_flight a' now name p h ->
      let a2 := receive behaviour ob oa (sent b b1) a' in
      promises a2 !! p = Some (if truthy e then Rejected e else Resolved VUndefined)
      /\ pendingFunctionCalls a2 !! now = None).
Proof.
  intros Hpeers Hms Hreg He. cbn zeta.
  destruct (peer_answers_call a b oa ob name args now l Hpeers Hms Hreg)
    as (Hcalls & Hun & Hsent).
  rewrite He in Hsent.
  split; [done | split; [done | split; [done | split; [by apply call_in_flight|]]]].
  intros a' Hcfg Hfly.
  destruct (answer_settles_in_flight a a' b oa ob name args now l _ _
              Hpeers Hms Hreg Hcfg Hfly) as [Hp Hgone].
  rewrite He in Hp, Hgone. split; [done|]. by apply Hgone.
Qed.

(** X13.  When the peer's listener never settles, the peer posts
    nothing, and the call stays in flight on the caller's side, where only
    its timer can settle it. *)
Theorem unsettled_listener_leaves_call_in_flight
    (a b : Framecast) oa ob name args now l :
  peers a b oa ob ->
  falsy (Config.functionTimeoutMs (config a)) = false ->
  listeners b !! ("function:" +:+ name) = Some [l] ->
  awaited (behaviour l args) = Pending ->
  let a1 := exec (call name args now) a in
  let b1 := receive behaviour oa ob (sent a a1) b in
  let a2 := receive behaviour ob oa (sent b b1) a1 in
  invoked b1 = invoked b ++ [(l, args)]
  /\ sent b b1 = []
  /\ in_flight a2 now name (length (promises a)) (length (timers a)).
Proof.
  intros Hpeers Hms Hreg Hnever.
  destruct (round_trip_listener a b oa ob name args now l Hpeers Hms Hreg)
    as (Hcalled & _ & _ & Hquiet & _).
  destruct (Hquiet Hnever) as [Hsent Hsame].
  cbn zeta. rewrite Hsame. repeat split; try done; by apply call_in_flight.
Qed.

(** X19.  When the peer's listener gives the value [v], the peer sends
    [v] back as the [result].  In any state of the caller where the call
    is still in flight (its own entry in the table, its promise pending:
    no other call has taken its id and no timeout has run), handling that
    answer resolves the promise with exactly [v] and removes the entry. *)
Theorem listener_value_is_carried_back (a b : Framecast) oa ob name args now l v :
  peers a b oa ob ->
  falsy (Config.functionTimeoutMs (config a)) = false ->
  listeners b !! ("function:" +:+ name) = Some [l] ->
  awaited (behaviour l args) = Resolved v ->
  let p := length (promises a) in
  let h := length (timers a) in
  let a1 := exec (call name args now) a in
  let b1 := receive behaviour oa ob (sent a a1) b in
  invoked b1 = invoked b ++ [(l, args)]
  /\ sent b b1 = [envelope b "functionResult" [("id", VNum now); ("result", v)]]
  /\ in_flight a1 now name p h
  /\ (forall a' : Framecast,
      config a' = config a ->
      in_flight a' now name p h ->
      let a2 := receive behaviour ob oa (sent b b1) a' in
      promises a2 !! p = Some (Resolved v)
      /\ pendingFunctionCalls a2 !! now = None).
Proof.
  intros Hpeers Hms Hreg Hv. cbn zeta.
  destruct (peer_answers_call a b oa ob name args now l Hpeers Hms Hreg)
    as (Hcalls & _ & Hsent).
  rewrite Hv in Hsent.
  split; [done | split; [done | split; [by apply call_in_flight|]]].
  intros a' Hcfg Hfly.
  destruct (answer_settles_in_flight a a' b oa ob name args now l _ _
              Hpeers Hms Hreg Hcfg Hfly) as [Hp Hgone].
  rewrite Hv in Hp, Hgone. split; [done|]. by apply Hgone.
Qed.

Lemma handleFunctionCall_one (s : Framecast) key id args l :
  listeners s !! key = Some [l] ->
  handleFunctionCall behaviour key id args s =
  match argument_list args with
  | None =>
      (Done tt,
       with_posted
         (fun q => q ++ [envelope s "functionResult" [("id", id); ("error", TypeError)]]) s)
  | Some al =>
      let s' := with_invoked (fun i => i ++ [(l, al)]) s in
      match awaited (behaviour l al) with
      | Resolved v =>
          (Done tt,
           with_posted
             (fun q => q ++ [envelope s "functionResult" [("id", id); ("result", v)]]) s')
      | Rejected e =>
          (Done tt,
           with_posted
             (fun q => q ++ [envelope s "functionResult" [("id", id); ("error", e)]]) s')
      | Pending => (Suspended, s')
      end
  end.
Proof.
  intros Hreg. unfold handleFunctionCall, postMessage, apply, await. step.
  rewrite Hreg. cbn.
  destruct (argument_list args) as [al|]; [| by step].
  destruct (behaviour l al) as [v | [| v | e] | e]; step; cbn; reflexivity.
Qed.

(** X14.  The [args] of an inbound call are handed to the listener as
    [apply] takes them.  When [args] is a boolean, a number or a string,
    [apply] throws before the listener runs: the listener is not called
    and the endpoint answers with that [TypeError] as the [error].  When
    [args] is missing or [null], the listener is called with no
    argument. *)
Theorem call_arguments_are_applied (s : Framecast) ev fs name l :
  accepted s ev fs ->
  assoc "type" fs = Some (VStr ("function:" +:+ name)) ->
  listeners s !! ("function:" +:+ name) = Some [l] ->
  (argument_list (field fs "args") = None ->
   handlePostedMessage behaviour ev s =
   (Done tt,
    with_posted
      (fun q => q ++ [envelope s "functionResult"
                        [("id", field fs "id"); ("error", TypeError)]]) s))
  /\ (field fs "args" = VUndefined \/ field fs "args" = VNull ->
      invoked (exec (handlePostedMessage behaviour ev) s) = invoked s ++ [(l, [])]).
Proof.
  intros Hacc Htype Hreg.
  pose proof (function_key name) as Hkey.
  destruct (function_prefix_not_broadcast _ Hkey) as [Hnb Hnr].
  unfold exec.
  rewrite (handlePostedMessage_accepted behaviour s ev fs _ Hacc Htype), Hnb, Hnr, Hkey.
  unfold spawn. rewrite (handleFunctionCall_one s _ _ _ l Hreg). split.
  - by intros ->.
  - intros Hargs.
    assert (Hnone : argument_list (field fs "args") = Some [])
      by (by destruct Hargs as [-> | ->]).
    rewrite Hnone. cbn zeta. by destruct (awaited (behaviour l [])).
Qed.

(** X15.  A broadcast posts one [broadcast] envelope with the data and
    touches nothing else of the sender.  The peer that receives it calls
    its broadcast listeners with that data (all of them, in registration
    order, when none throws) and posts nothing back; its pending calls are
    untouched. *)
Theorem broadcast_reaches_peer (a b : Framecast) oa ob d set :
  peers a b oa ob ->
  listeners b !! "broadcast" = Some set ->
  let a1 := exec (broadcast d) a in
  let b1 := receive behaviour oa ob (sent a a1) b in
  a1 = with_posted (fun q => q ++ [envelope a "broadcast" [("data", d)]]) a
  /\ invoked b1 = invoked b ++ map (fun l => (l, [d])) (called behaviour d set)
  /\ ((forall l, l ∈ set -> throws (behaviour l [d]) = false) ->
      invoked b1 = invoked b ++ map (fun l => (l, [d])) set)
  /\ posted b1 = posted b
  /\ pendingFunctionCalls b1 = pendingFunctionCalls b.
Proof.
  intros (Hchannel & Hab & Hba) Hreg. cbn zeta.
  assert (Ha1 : exec (broadcast d) a
                = with_posted (fun q => q ++ [envelope a "broadcast" [("data", d)]]) a)
    by reflexivity.
  rewrite Ha1. erewrite sent_app by reflexivity. rewrite receive_one by done.
  set (event := {| data := _; event_origin := oa |}).
  assert (Hacc : accepted b event
            ([("data", d)] ++ [("type", VStr "broadcast"); ("channel", VStr (channel a))])).
  { repeat split.
    - apply parse_stringify.
    - by apply deliverable_accepted.
    - cbn. by rewrite Hchannel. }
  unfold exec. rewrite (handlePostedMessage_accepted behaviour b event _ _ Hacc eq_refl).
  cbn [String.eqb Ascii.eqb Bool.eqb].
  replace (field _ "data") with d by reflexivity.
  unfold spawn. rewrite handleBroadcast_run, Hreg.
  cbn [default from_option id].
  destruct (first_thrown behaviour d set) as [e|] eqn:Hthrown; cbn [snd].
  all: split; [done | split; [done | split; [| by split]]].
  all: intros Hquiet; cbn; by rewrite (called_all behaviour d set Hquiet).
Qed.

Lemma foreign_envelope_dropped (a b : Framecast) oa ob type message :
  assoc "channel" message = None ->
  channel a <> channel b \/ (origin b <> "*" /\ oa <> origin b) ->
  receive behaviour oa ob [envelope a type message] b = b.
Proof.
  intros Hfree Hmis. unfold receive. cbn [fold_left].
  destruct (deliverable _ ob); [| done]. unfold exec.
  destruct Hmis as [Hch | [Hw Ho]].
  - erewrite drop_foreign_channel; [done | apply parse_stringify |].
    cbn. unfold field. rewrite assoc_app, Hfree. cbn. congruence.
  - by rewrite drop_foreign_origin; [| apply origin_rejected].
Qed.

(** X16.  Endpoints that do not match do not interoperate.  When the
    peer derives another channel key, or is configured with an origin
    other than the sender's, a call or a broadcast of the sender leaves
    the peer exactly as it was: no listener runs and nothing is
    answered. *)
Theorem mismatched_endpoints_do_not_interoperate (a b : Framecast) oa ob :
  channel a <> channel b \/ (origin b <> "*" /\ oa <> origin b) ->
  (forall name args now,
     receive behaviour oa ob (sent a (exec (call name args now) a)) b = b)
  /\ (forall d, receive behaviour oa ob (sent a (exec (broadcast d) a)) b = b).
Proof.
  intros Hmis. split.
  - intros name args now. unfold exec.
    destruct (falsy (Config.functionTimeoutMs (config a))) eqn:Hms.
    + rewrite call_refused by done. by rewrite sent_same.
    + rewrite call_issued by done. erewrite sent_app by reflexivity.
      by apply foreign_envelope_dropped.
  - intros d.
    assert (Ha1 : exec (broadcast d) a
                  = with_posted (fun q => q ++ [envelope a "broadcast" [("data", d)]]) a)
      by reflexivity.
    rewrite Ha1. erewrite sent_app by reflexivity.
    by apply foreign_envelope_dropped.
Qed.

(** *** Calls with distinct ids *)

Lemma in_flight_after_settling (s : Framecast) id f q st id' name' p' h' :
  in_flight s id' name' p' h' ->
  id <> id' -> f (timers s) !! h' = timers s !! h' -> q <> p' ->
  in_flight
    (with_promises (settle_in q st)
       (with_timers f (with_pending (fun m => delete id m) s)))
    id' name' p' h'.
Proof.
  intros (Hentry & Htimer & Hpromise) Hid Hh Hq. repeat split; cbn.
  - by rewrite lookup_delete_ne.
  - by rewrite Hh.
  - unfold settle_in. destruct (promises s !! q) as [[| |]|]; try done.
    by rewrite list_lookup_insert_ne.
Qed.

Lemma two_calls_in_flight (s : Framecast) n1 args1 t1 n2 args2 t2 :
  falsy (Config.functionTimeoutMs (config s)) = false ->
  t1 <> t2 ->
  let s2 := exec (call n2 args2 t2) (exec (call n1 args1 t1) s) in
  in_flight s2 t1 n1 (length (promises s)) (length (timers s))
  /\ in_flight s2 t2 n2 (S (length (promises s))) (S (length (timers s))).
Proof.
  intros Hms Hne. cbn zeta.
  pose proof (call_in_flight (exec (call n1 args1 t1) s) n2 args2 t2) as Hsecond.
  unfold exec in *. rewrite (call_issued s n1 args1 t1 Hms) in *. cbn [snd] in *.
  cbn [promises timers config with_posted with_pending with_timers with_promises]
    in Hsecond.
  rewrite !length_app in Hsecond. cbn [length] in Hsecond.
  rewrite !Nat.add_1_r in Hsecond. specialize (Hsecond Hms).
  split; [| done].
  rewrite call_issued by done. repeat split; cbn.
  - rewrite lookup_insert_ne by done. apply lookup_insert_eq.
  - rewrite lookup_app_l by (rewrite length_app; cbn; lia). apply lookup_snoc.
  - rewrite lookup_app_l by (rewrite length_app; cbn; lia). apply lookup_snoc.
Qed.

(** X17.  Calls with distinct ids do not interfere.  After two calls
    whose ids differ, both are in flight with entries, timers and
    promises of their own; a result for the first, or the timeout of the
    first, settles the first and leaves the second in flight, and a
    result for the second leaves the first in flight. *)
Theorem calls_with_distinct_ids_are_independent
    (s : Framecast) n1 args1 t1 n2 args2 t2 :
  falsy (Config.functionTimeoutMs (config s)) = false ->
  t1 <> t2 ->
  let p := length (promises s) in
  let h := length (timers s) in
  let s2 := exec (call n2 args2 t2) (exec (call n1 args1 t1) s) in
  in_flight s2 t1 n1 p h
  /\ in_flight s2 t2 n2 (S p) (S h)
  /\ (forall ev fs, result_for s2 t1 ev fs ->
      let s3 := exec (handlePostedMessage behaviour ev) s2 in
      promises s3 !! p = Some (settlement fs) /\ in_flight s3 t2 n2 (S p) (S h))
  /\ (forall ev fs, result_for s2 t2 ev fs ->
      let s3 := exec (handlePostedMessage behaviour ev) s2 in
      promises s3 !! S p = Some (settlement fs) /\ in_flight s3 t1 n1 p h)
  /\ (let s4 := exec (fireTimeout h) s2 in
      promises s4 !! p = Some (Rejected (timeout_error s n1))
      /\ in_flight s4 t2 n2 (S p) (S h)).
Proof.
  intros Hms Hne. cbn zeta.
  destruct (two_calls_in_flight s n1 args1 t1 n2 args2 t2 Hms Hne) as [H1 H2].
  set (s2 := exec (call n2 args2 t2) (exec (call n1 args1 t1) s)) in *.
  assert (Hcfg : config s2 = config s).
  { unfold s2, exec. rewrite (call_issued s n1 args1 t1 Hms). cbn [snd].
    by rewrite call_issued. }
  split; [done | split; [done | split; [| split]]].
  - intros ev fs Hres. unfold exec.
    rewrite (result_settles behaviour s2 t1 ev fs _ Hres (proj1 H1)). cbn [snd].
    split.
    + cbn. destruct (truthy (field fs "error"));
        apply settle_in_pending; by destruct H1 as (_ & _ & ?).
    + apply in_flight_after_settling;
        [done | congruence | cbn; apply list_lookup_insert_ne; lia
        | cbn; destruct (truthy _); lia].
  - intros ev fs Hres. unfold exec.
    rewrite (result_settles behaviour s2 t2 ev fs _ Hres (proj1 H2)). cbn [snd].
    split.
    + cbn. destruct (truthy (field fs "error"));
        apply settle_in_pending; by destruct H2 as (_ & _ & ?).
    + apply in_flight_after_settling;
        [done | congruence | cbn; apply list_lookup_insert_ne; lia
        | cbn; destruct (truthy _); lia].
  - unfold exec.
    pose proof H1 as (Hentry & Htimer & Hpromise).
    rewrite (fireTimeout_armed s2 _ _ _ Htimer Hentry). cbn [snd].
    split.
    + cbn. unfold timeout_error. rewrite Hcfg. by apply settle_in_pending.
    + apply in_flight_after_settling; [done | cbn; congruence | | cbn; lia].
      cbn. rewrite !list_lookup_insert_ne by lia. done.
Qed.

(** *** The constructor and [evaluate] *)

Lemma new_Framecast_evaluate cfg :
  listeners (new_Framecast evaluate_listener cfg) !! "function:evaluate"
  = if Config.supportEvaluate cfg then Some [evaluate_listener] else None.
Proof.
  unfold new_Framecast. destruct (Config.supportEvaluate cfg); [| done].
  unfold exec, on. step. reflexivity.
Qed.

(** X18.  [evaluate] makes a call of [evaluate] with the text as its one
    argument, and the constructor decides who answers it.  For a peer
    whose listeners under [function:evaluate] are as its constructor left
    them: built without [supportEvaluate] (the default), the peer runs
    nothing and the caller's promise is rejected with "No listeners for
    function:evaluate"; built with it, the peer calls the function the
    constructor registered with the text, and the caller's promise ends in
    what that call gives.  The caller's side holds in any state where the
    call is still in flight when the answer is handled. *)
Theorem evaluate_needs_supportEvaluate
    (a b b0 : Framecast) oa ob target given text now :
  constructor evaluate_listener (Some target) given = Done b0 ->
  listeners b !! "function:evaluate" = listeners b0 !! "function:evaluate" ->
  peers a b oa ob ->
  falsy (Config.functionTimeoutMs (config a)) = false ->
  let enabled := Config.supportEvaluate (merge default_config given) in
  let p := length (promises a) in
  let h := length (timers a) in
  let a1 := exec (evaluate text now) a in
  let b1 := receive behaviour oa ob (sent a a1) b in
  (given = None -> enabled = false)
  /\ in_flight a1 now "evaluate" p h
  /\ (enabled = false ->
      invoked b1 = invoked b
      /\ forall a' : Framecast,
           config a' = config a ->
           in_flight a' now "evaluate" p h ->
           promises (receive behaviour ob oa (sent b b1) a') !! p
           = Some (Rejected (VError "No listeners for function:evaluate")))
  /\ (enabled = true ->
      invoked b1 = invoked b ++ [(evaluate_listener, [VStr text])]
      /\ forall a' : Framecast,
           config a' = config a ->
           in_flight a' now "evaluate" p h ->
           promises (receive behaviour ob oa (sent b b1) a') !! p
           = Some (carried (awaited (behaviour evaluate_listener [VStr text])))).
Proof.
  intros Hnew Hsame Hpeers Hms. cbn zeta. injection Hnew as <-.
  rewrite new_Framecast_evaluate in Hsame. unfold evaluate.
  split; [by intros -> | split; [by apply call_in_flight | split]].
  - intros Hoff. rewrite Hoff in Hsame.
    destruct (peer_refuses_call a b oa ob "evaluate" [VStr text] now Hpeers Hms
                (or_introl Hsame)) as [Hcalls Hsent].
    cbn zeta in Hcalls, Hsent. split; [done|].
    intros a' Hcfg Hfly. pose proof Hfly as (_ & _ & Hp). rewrite Hsent.
    rewrite (reply_settles_in_flight a a' b oa ob now "evaluate" _ _ "error" _
               Hpeers Hcfg Hfly) by (by right).
    cbn [promises with_promises with_timers with_pending]. by apply settle_in_pending.
  - intros Hon. rewrite Hon in Hsame.
    destruct (peer_answers_call a b oa ob "evaluate" [VStr text] now evaluate_listener
                Hpeers Hms Hsame) as (Hcalls & _ & _).
    split; [done|]. intros a' Hcfg Hfly.
    by destruct (answer_settles_in_flight a a' b oa ob "evaluate" [VStr text] now
                   evaluate_listener _ _ Hpeers Hms Hsame Hcfg Hfly) as [Hp _].
Qed.

End Coverage.

(** ** The further properties in the concrete world *)

(** [C] is [B] with function 2, which throws, listening to [fail], and
    function 5, which never settles, listening to [slow]. *)
Definition endpoint_C : @Framecast memory_codec :=
  exec (on "function:slow" 5) (exec (on "function:fail" 2) endpoint_B).

(** An endpoint on another channel. *)
Definition endpoint_D : @Framecast memory_codec :=
  @new_Framecast memory_codec 0
    {| Config.origin := None; Config.channel := Some "c2";
       Config.functionTimeoutMs := Some 50%Z; Config.supportEvaluate := false |}.

Lemma unknown_message_type_ignored_witness :
  handlePostedMessage example_behaviour
    (example_event (VObject [("type", VStr "ping"); ("channel", VStr "__framecast_c1")]))
    endpoint_B
  = (Done tt, endpoint_B).
Proof.
  refine (@unknown_message_type_ignored memory_codec example_behaviour endpoint_B
            (example_event
               (VObject [("type", VStr "ping"); ("channel", VStr "__framecast_c1")]))
            [("type", VStr "ping"); ("channel", VStr "__framecast_c1")]
            (conj eq_refl (conj eq_refl eq_refl)) _).
  intros t Ht. injection Ht as <-. repeat split.
Defined.

Lemma on_then_off_restores_witness :
  exec (off "broadcast" 8) (exec (on "broadcast" 8) endpoint_B) = endpoint_B.
Proof.
  refine (proj2 (@on_then_off_restores memory_codec endpoint_B "broadcast" 8 [3; 4]
                   eq_refl eq_refl _)).
  intros E. discriminate E.
Defined.

Lemma off_unregistered_is_noop_witness :
  off "function:nothing" 8 endpoint_B = (Done tt, endpoint_B)
  /\ off "broadcast" 8 endpoint_B = (Done tt, endpoint_B).
Proof.
  split.
  - exact (@off_unregistered_is_noop memory_codec endpoint_B "function:nothing" 8
             (or_intror eq_refl) (or_introl eq_refl)).
  - exact (@off_unregistered_is_noop memory_codec endpoint_B "broadcast" 8
             (or_introl eq_refl)
             (or_intror (ex_intro _ [3; 4] (conj eq_refl eq_refl)))).
Defined.

Lemma call_without_listener_is_rejected_witness :
  let a1 := exec (call "missingFn" [] tick) endpoint_A in
  let b1 := receive example_behaviour origin_A origin_B (sent endpoint_A a1) endpoint_B in
  let a2 := receive example_behaviour origin_B origin_A (sent endpoint_B b1) a1 in
  promises a2 !! 0%nat
  = Some (Rejected (VError "No listeners for function:missingFn")).
Proof.
  pose proof (@call_without_listener_is_rejected memory_codec example_behaviour
                endpoint_A endpoint_B origin_A origin_B "missingFn" [] tick
                (conj eq_refl (conj eq_refl eq_refl)) eq_refl (or_introl eq_refl))
    as (_ & Hfly & Hanswer).
  exact (proj1 (Hanswer (exec (call "missingFn" [] tick) endpoint_A) eq_refl Hfly)).
Defined.

Lemma listener_error_is_carried_back_witness :
  let a1 := exec (call "fail" [] tick) endpoint_A in
  let b1 := receive example_behaviour origin_A origin_B (sent endpoint_A a1) endpoint_C in
  let a2 := receive example_behaviour origin_B origin_A (sent endpoint_C b1) a1 in
  promises a2 !! 0%nat = Some (Rejected (VError "boom")).
Proof.
  pose proof (@listener_error_is_carried_back memory_codec example_behaviour
                endpoint_A endpoint_C origin_A origin_B "fail" [] tick 2 (VError "boom")
                (conj eq_refl (conj eq_refl eq_refl)) eq_refl eq_refl eq_refl)
    as (_ & _ & _ & Hfly & Hanswer).
  exact (proj1 (Hanswer (exec (call "fail" [] tick) endpoint_A) eq_refl Hfly)).
Defined.

Lemma listener_value_is_carried_back_witness :
  let a1 := exec (call "double" [VNum 5] tick) endpoint_A in
  let b1 := receive example_behaviour origin_A origin_B (sent endpoint_A a1) endpoint_B in
  let a2 := receive example_behaviour origin_B origin_A (sent endpoint_B b1) a1 in
  promises a2 !! 0%nat = Some (Resolved (VNum 10)).
Proof.
  pose proof (@listener_value_is_carried_back memory_codec example_behaviour
                endpoint_A endpoint_B origin_A origin_B "double" [VNum 5] tick 1 (VNum 10)
                (conj eq_refl (conj eq_refl eq_refl)) eq_refl eq_refl eq_refl)
    as (_ & _ & Hfly & Hanswer).
  exact (proj1 (Hanswer (exec (call "double" [VNum 5] tick) endpoint_A) eq_refl Hfly)).
Defined.

Lemma unsettled_listener_leaves_call_in_flight_witness :
  let a1 := exec (call "slow" [] tick) endpoint_A in
  let b1 := receive example_behaviour origin_A origin_B (sent endpoint_A a1) endpoint_C in
  let a2 := receive example_behaviour origin_B origin_A (sent endpoint_C b1) a1 in
  sent endpoint_C b1 = [] /\ in_flight a2 tick "slow" 0 0.
Proof.
  exact (proj2 (@unsettled_listener_leaves_call_in_flight memory_codec example_behaviour
                  endpoint_A endpoint_C origin_A origin_B "slow" [] tick 5
                  (conj eq_refl (conj eq_refl eq_refl)) eq_refl eq_refl eq_refl)).
Defined.

Lemma call_arguments_are_applied_witness :
  let fs := [("id", VNum 7); ("args", VNum 5); ("type", VStr "function:double");
             ("channel", VStr "__framecast_c1")] in
  handlePostedMessage example_behaviour (example_event (VObject fs)) endpoint_B
  = (Done tt,
     with_posted
       (fun q => q ++ [envelope endpoint_B "functionResult"
                         [("id", VNum 7); ("error", TypeError)]])
       endpoint_B).
Proof.
  exact (proj1 (@call_arguments_are_applied memory_codec example_behaviour endpoint_B
                  (example_event
                     (VObject [("id", VNum 7); ("args", VNum 5);
                               ("type", VStr "function:double");
                               ("channel", VStr "__framecast_c1")]))
                  [("id", VNum 7); ("args", VNum 5); ("type", VStr "function:double");
                   ("channel", VStr "__framecast_c1")]
                  "double" 1
                  (conj eq_refl (conj eq_refl eq_refl)) eq_refl eq_refl) eq_refl).
Defined.

Lemma broadcast_reaches_peer_witness :
  let a1 := exec (broadcast (VNum 1)) endpoint_A in
  let b1 := receive example_behaviour origin_A origin_B (sent endpoint_A a1) endpoint_B in
  invoked b1 = [(3, [VNum 1]); (4, [VNum 1])] /\ posted b1 = [].
Proof.
  pose proof (@broadcast_reaches_peer memory_codec example_behaviour
                endpoint_A endpoint_B origin_A origin_B (VNum 1) [3; 4]
                (conj eq_refl (conj eq_refl eq_refl)) eq_refl)
    as (_ & Hcalls & _ & Hposted & _).
  exact (conj Hcalls Hposted).
Defined.

Lemma mismatched_endpoints_do_not_interoperate_witness :
  receive example_behaviour origin_A origin_B
    (sent endpoint_A (exec (call "double" [VNum 5] tick) endpoint_A)) endpoint_D
  = endpoint_D.
Proof.
  refine (proj1 (@mismatched_endpoints_do_not_interoperate memory_codec example_behaviour
                   endpoint_A endpoint_D origin_A origin_B (or_introl _))
            "double" [VNum 5] tick).
  intros E. vm_compute in E. discriminate E.
Defined.

Lemma calls_with_distinct_ids_are_independent_witness :
  let s2 := exec (call "g" [] (tick + 1)) (exec (call "f" [] tick) endpoint_A) in
  in_flight s2 tick "f" 0 0 /\ in_flight s2 (tick + 1) "g" 1 1.
Proof.
  pose proof (@calls_with_distinct_ids_are_independent memory_codec example_behaviour
                endpoint_A "f" [] tick "g" [] (tick + 1)%Z eq_refl ltac:(discriminate))
    as (Hf & Hg & _).
  exact (conj Hf Hg).
Defined.

(** A caller and a peer built with no options: the peer has listeners for
    [f] registered since, but none for [evaluate]. *)
Lemma evaluate_needs_supportEvaluate_witness :
  let a := @new_Framecast memory_codec 0 default_config in
  let b := exec (on "function:f" 6) (@new_Framecast memory_codec 0 default_config) in
  let a1 := exec (evaluate "(() => 1)()" tick) a in
  let b1 := receive example_behaviour origin_A origin_B (sent a a1) b in
  let a2 := receive example_behaviour origin_B origin_A (sent b b1) a1 in
  promises a2 !! 0%nat
  = Some (Rejected (VError "No listeners for function:evaluate")).
Proof.
  pose proof (@evaluate_needs_supportEvaluate memory_codec example_behaviour 0
                (@new_Framecast memory_codec 0 default_config)
                (exec (on "function:f" 6) (@new_Framecast memory_codec 0 default_config))
                (@new_Framecast memory_codec 0 default_config)
                origin_A origin_B 1 None "(() => 1)()" tick eq_refl eq_refl
                (conj eq_refl (conj eq_refl eq_refl)) eq_refl)
    as (_ & Hfly & Hoff & _).
  exact (proj2 (Hoff eq_refl)
           (exec (evaluate "(() => 1)()" tick)
              (@new_Framecast memory_codec 0 default_config)) eq_refl Hfly).
Defined.
